(** * Address book assistant (main.py): a shallow embedding and its properties

    The development follows the layout of [main.py]:
    - exceptions are values of a [result] type ([Ok] / [Raise]);
    - [datetime.date] is modelled after CPython's proleptic Gregorian
      arithmetic ([_ymd2ord], [_ord2ymd], [weekday], [date + timedelta]);
    - Python [str] is [string], read as a sequence of code points below 256;
    - the [dict] behind [AddressBook] is an association list in insertion
      order. *)

From Stdlib Require Import ZArith Lia Bool List Ascii String.
Import ListNotations.

Local Open Scope string_scope.
Local Open Scope list_scope.
Local Open Scope Z_scope.

(** ** Exceptions *)

Inductive exn : Type :=
| ValueError (msg : string)
| TypeError (msg : string)
| AttributeError (msg : string)
| OverflowError (msg : string).

Inductive result (A : Type) : Type :=
| Ok (a : A)
| Raise (e : exn).

Arguments Ok {A} a.
Arguments Raise {A} e.

Definition bind {A B : Type} (m : result A) (k : A -> result B) : result B :=
  match m with
  | Ok a => k a
  | Raise e => Raise e
  end.

Notation "x <- m ;; k" := (bind m (fun x => k))
  (at level 61, m at next level, right associativity).

Definition is_ok {A : Type} (m : result A) : bool :=
  match m with Ok _ => true | Raise _ => false end.

(** ** datetime.date *)

Module Date.

Record date : Type := mkdate { year : Z; month : Z; day : Z }.

Definition MINYEAR : Z := 1.
Definition MAXYEAR : Z := 9999.

Definition _is_leap (y : Z) : bool :=
  (y mod 4 =? 0) && (negb (y mod 100 =? 0) || (y mod 400 =? 0)).

Definition _days_before_year (y : Z) : Z :=
  let y := y - 1 in
  y * 365 + y / 4 - y / 100 + y / 400.

Definition _DAYS_IN_MONTH : list Z :=
  [-1; 31; 28; 31; 30; 31; 30; 31; 31; 30; 31; 30; 31].

Definition _DAYS_BEFORE_MONTH : list Z :=
  [-1; 0; 31; 59; 90; 120; 151; 181; 212; 243; 273; 304; 334].

Definition tbl (t : list Z) (i : Z) : Z := nth (Z.to_nat i) t 0.

Definition _days_in_month (y m : Z) : Z :=
  if (m =? 2) && _is_leap y then 29 else tbl _DAYS_IN_MONTH m.

Definition _days_before_month (y m : Z) : Z :=
  tbl _DAYS_BEFORE_MONTH m + (if (2 <? m) && _is_leap y then 1 else 0).

Definition _ymd2ord (y m d : Z) : Z :=
  _days_before_year y + _days_before_month y m + d.

Definition _DI400Y : Z := 146097.
Definition _DI100Y : Z := 36524.
Definition _DI4Y : Z := 1461.
Definition _MAXORDINAL : Z := 3652059.

Definition _ord2ymd (n : Z) : Z * Z * Z :=
  let n := n - 1 in
  let n400 := n / _DI400Y in
  let n := n mod _DI400Y in
  let y := n400 * 400 + 1 in
  let n100 := n / _DI100Y in
  let n := n mod _DI100Y in
  let n4 := n / _DI4Y in
  let n := n mod _DI4Y in
  let n1 := n / 365 in
  let n := n mod 365 in
  let y := y + n100 * 100 + n4 * 4 + n1 in
  if (n1 =? 4) || (n100 =? 4) then (y - 1, 12, 31)
  else
    let leapyear := (n1 =? 3) && (negb (n4 =? 24) || (n100 =? 3)) in
    let m := Z.shiftr (n + 50) 5 in
    let preceding :=
      tbl _DAYS_BEFORE_MONTH m + (if (2 <? m) && leapyear then 1 else 0) in
    if n <? preceding then
      let m := m - 1 in
      let preceding :=
        preceding
        - (tbl _DAYS_IN_MONTH m + (if (m =? 2) && leapyear then 1 else 0)) in
      (y, m, n - preceding + 1)
    else (y, m, n - preceding + 1).

(** [date(year, month, day)]: the constructor checks its fields. The texts
    of the library's errors stand for the ones CPython prints. *)
Definition new (y m d : Z) : result date :=
  if negb ((MINYEAR <=? y) && (y <=? MAXYEAR)) then
    Raise (ValueError "year is out of range")
  else if negb ((1 <=? m) && (m <=? 12)) then
    Raise (ValueError "month must be in 1..12")
  else if negb ((1 <=? d) && (d <=? _days_in_month y m)) then
    Raise (ValueError "day is out of range for month")
  else Ok (mkdate y m d).

Definition toordinal (a : date) : Z := _ymd2ord (year a) (month a) (day a).

Definition fromordinal (n : Z) : date :=
  let '(y, m, d) := _ord2ymd n in mkdate y m d.

Definition weekday (a : date) : Z := (toordinal a + 6) mod 7.

(** [a < b]: comparison of the (year, month, day) tuples. *)
Definition lt (a b : date) : bool :=
  (year a <? year b)
  || ((year a =? year b)
      && ((month a <? month b)
          || ((month a =? month b) && (day a <? day b)))).

(** [a + timedelta(days=k)] *)
Definition add_days (a : date) (k : Z) : result date :=
  let o := toordinal a + k in
  if (0 <? o) && (o <=? _MAXORDINAL) then Ok (fromordinal o)
  else Raise (OverflowError "date value out of range").

(** [(a - b).days] *)
Definition sub_days (a b : date) : Z := toordinal a - toordinal b.

(** The dates the constructor accepts. *)
Definition valid (a : date) : Prop :=
  MINYEAR <= year a <= MAXYEAR /\ 1 <= month a <= 12
  /\ 1 <= day a <= _days_in_month (year a) (month a).

Definition validb (a : date) : bool := is_ok (new (year a) (month a) (day a)).

End Date.

(** ** str: the string operations the program uses *)

Module Str.

Definition ord (c : ascii) : Z := Z.of_N (N_of_ascii c).
Definition chr (n : Z) : ascii := ascii_of_N (Z.to_N n).

Definition in_range (lo hi : ascii) (c : ascii) : bool :=
  (ord lo <=? ord c) && (ord c <=? ord hi).

Definition is_char (a : ascii) (c : ascii) : bool := ord c =? ord a.

(** [\d] on code points below 256 *)
Definition isdigit (c : ascii) : bool := in_range "0" "9" c.

(** [str.isspace] on code points below 256: TAB..CR, FS..US, space, NEL,
    NBSP. *)
Definition isspace (c : ascii) : bool :=
  let n := ord c in
  ((9 <=? n) && (n <=? 13)) || ((28 <=? n) && (n <=? 32))
  || (n =? 133) || (n =? 160).

(** [str.lower] on code points below 256: A..Z and the accented capitals
    of Latin-1 (all of 0xC0..0xDE but the multiplication sign). *)
Definition lower_char (c : ascii) : ascii :=
  let n := ord c in
  if ((65 <=? n) && (n <=? 90))
     || ((192 <=? n) && (n <=? 222) && negb (n =? 215))
  then chr (n + 32) else c.

Fixpoint lower (s : string) : string :=
  match s with
  | EmptyString => EmptyString
  | String c s' => String (lower_char c) (lower s')
  end.

Fixpoint lstrip (s : string) : string :=
  match s with
  | EmptyString => EmptyString
  | String c s' => if isspace c then lstrip s' else s
  end.

Fixpoint rstrip (s : string) : string :=
  match s with
  | EmptyString => EmptyString
  | String c s' =>
      match rstrip s' with
      | EmptyString => if isspace c then EmptyString else String c EmptyString
      | r => String c r
      end
  end.

Definition strip (s : string) : string := rstrip (lstrip s).

Definition len (s : string) : Z := Z.of_nat (String.length s).

(** [int(s)] for the texts the program converts: surrounding white space
    is dropped and the decimal digits are read left to right. *)
Fixpoint digits_value (acc : Z) (s : string) : Z :=
  match s with
  | EmptyString => acc
  | String c s' => digits_value (acc * 10 + (ord c - 48)) s'
  end.

Definition int (s : string) : Z := digits_value 0 (strip s).

(** Decimal digits of a natural number, most significant first. *)
Fixpoint dec_digits (fuel : nat) (n : Z) (acc : string) : string :=
  match fuel with
  | O => acc
  | S fuel' =>
      let acc' := String (chr (48 + n mod 10)) acc in
      if n / 10 =? 0 then acc' else dec_digits fuel' (n / 10) acc'
  end.

Definition str_of_Z (n : Z) : string := dec_digits (S (Z.to_nat n)) n EmptyString.

Fixpoint zeros (k : nat) : string :=
  match k with
  | O => EmptyString
  | S k' => String "0" (zeros k')
  end.

(** ["%0<w>d" % n] for [0 <= n] *)
Definition zfill (w : nat) (n : Z) : string :=
  let s := str_of_Z n in
  (zeros (w - String.length s) ++ s)%string.

End Str.

(** ** re: a backtracking matcher for the patterns the program compiles

    [run] lists the ways a pattern matches at a position, in the order a
    backtracking engine tries them; [match_] is the first of them and
    [fullmatch] the first that reaches the end of the text. *)

Module Re.

Inductive re : Type :=
| Eps
| Cls (p : ascii -> bool)          (* one character of a class *)
| Cat (a b : re)
| Or (a b : re)
| Rep (n : nat) (a : re)           (* a{n} *)
| Bol                              (* ^ *)
| Eol                              (* $ *)
| Grp (name : ascii) (a : re).     (* (?P<name>a) *)

Definition groups : Type := list (ascii * string).

Record st : Type := mkst { pos : nat; rest : string; caps : groups }.

Fixpoint prefix (n : nat) (s : string) : string :=
  match n, s with
  | S n', String c s' => String c (prefix n' s')
  | _, _ => EmptyString
  end.

Definition consumed (before after : st) : string :=
  prefix (pos after - pos before) (rest before).

Definition newline : ascii := Ascii.ascii_of_nat 10.

Fixpoint run (r : re) (x : st) : list st :=
  match r with
  | Eps => [x]
  | Cls p =>
      match rest x with
      | String c s' => if p c then [mkst (S (pos x)) s' (caps x)] else []
      | EmptyString => []
      end
  | Cat a b => flat_map (run b) (run a x)
  | Or a b => run a x ++ run b x
  | Rep n a =>
      (fix rep (k : nat) (y : st) : list st :=
         match k with
         | O => [y]
         | S k' => flat_map (rep k') (run a y)
         end) n x
  | Bol => match pos x with O => [x] | S _ => [] end
  | Eol =>
      match rest x with
      | EmptyString => [x]
      | String c EmptyString => if Ascii.eqb c newline then [x] else []
      | _ => []
      end
  | Grp name a =>
      map (fun y => mkst (pos y) (rest y) (caps y ++ [(name, consumed x y)]))
          (run a x)
  end.

Definition start (s : string) : st := mkst 0 s [].

Definition match_ (r : re) (s : string) : option st := hd_error (run r (start s)).

Definition at_end (x : st) : bool :=
  match rest x with EmptyString => true | _ => false end.

Definition fullmatch (r : re) (s : string) : option st :=
  find at_end (run r (start s)).

Fixpoint group (name : ascii) (g : groups) : option string :=
  match g with
  | [] => None
  | (k, v) :: g' => if Ascii.eqb k name then Some v else group name g'
  end.

End Re.

(** ** strptime / strftime / isoformat *)

(** [%Y] of the C library differs between platforms for years below 1000
    (zero padded or not); from 1000 on it is the four digits. *)
Class Libc : Type := {
  strftime_Y : Z -> string;
  strftime_Y_four : forall y, 1000 <= y <= 9999 -> strftime_Y y = Str.zfill 4 y
}.

Module Time.

Import Re.

(** The patterns of the directives, as [_strptime.TimeRE] has them. *)
Definition re_d : re :=
  Or (Cat (Cls (Str.is_char "3")) (Cls (Str.in_range "0" "1")))
  (Or (Cat (Cls (Str.in_range "1" "2")) (Cls Str.isdigit))
  (Or (Cat (Cls (Str.is_char "0")) (Cls (Str.in_range "1" "9")))
  (Or (Cls (Str.in_range "1" "9"))
      (Cat (Cls (Str.is_char " ")) (Cls (Str.in_range "1" "9")))))).

Definition re_m : re :=
  Or (Cat (Cls (Str.is_char "1")) (Cls (Str.in_range "0" "2")))
  (Or (Cat (Cls (Str.is_char "0")) (Cls (Str.in_range "1" "9")))
      (Cls (Str.in_range "1" "9"))).

Definition re_Y : re :=
  Cat (Cls Str.isdigit) (Cat (Cls Str.isdigit)
  (Cat (Cls Str.isdigit) (Cls Str.isdigit))).

Definition directive_re (c : ascii) : option re :=
  if Ascii.eqb c "d" then Some (Grp "d" re_d)
  else if Ascii.eqb c "m" then Some (Grp "m" re_m)
  else if Ascii.eqb c "Y" then Some (Grp "Y" re_Y)
  else None.

(** [TimeRE.pattern]: directives become groups, other characters match
    themselves. Directives other than [%d], [%m], [%Y] are not modelled. *)
Fixpoint pattern (fmt : string) : option re :=
  match fmt with
  | EmptyString => Some Eps
  | String "%" (String c fmt') =>
      match directive_re c, pattern fmt' with
      | Some r, Some r' => Some (Cat r r')
      | _, _ => None
      end
  | String c fmt' =>
      match pattern fmt' with
      | Some r' => Some (Cat (Cls (Str.is_char c)) r')
      | None => None
      end
  end.

Definition group_int (name : ascii) (g : groups) (default : Z) : Z :=
  match group name g with
  | Some v => Str.int v
  | None => default
  end.

(** [datetime.strptime(data_string, format).date()] *)
Definition strptime (data_string fmt : string) : result Date.date :=
  match pattern fmt with
  | None => Raise (ValueError "bad directive in format")
  | Some format_regex =>
      match match_ format_regex data_string with
      | None => Raise (ValueError "time data does not match format")
      | Some found =>
          if negb (at_end found) then
            Raise (ValueError "unconverted data remains")
          else
            let y := group_int "Y" (caps found) 1900 in
            let m := group_int "m" (caps found) 1 in
            let d := group_int "d" (caps found) 1 in
            Date.new y m d
      end
  end.

Definition directive_str `{Libc} (c : ascii) (a : Date.date) : string :=
  if Ascii.eqb c "d" then Str.zfill 2 (Date.day a)
  else if Ascii.eqb c "m" then Str.zfill 2 (Date.month a)
  else if Ascii.eqb c "Y" then strftime_Y (Date.year a)
  else String "%" (String c EmptyString).

(** [a.strftime(fmt)] for the directives above *)
Fixpoint strftime `{Libc} (fmt : string) (a : Date.date) : string :=
  match fmt with
  | EmptyString => EmptyString
  | String "%" (String c fmt') => (directive_str c a ++ strftime fmt' a)%string
  | String c fmt' => String c (strftime fmt' a)
  end.

(** [str(a)], that is [a.isoformat()]: ["%04d-%02d-%02d"] *)
Definition isoformat (a : Date.date) : string :=
  (Str.zfill 4 (Date.year a) ++ "-" ++ Str.zfill 2 (Date.month a) ++ "-"
   ++ Str.zfill 2 (Date.day a))%string.

End Time.

(** ** The program *)

Definition DATE_STR_PATTERN : string := "%d.%m.%Y".

(** [str(v)] *)
Class PyStr (T : Type) : Type := py_str : T -> string.

#[global] Instance PyStr_str : PyStr string := fun s => s.
#[global] Instance PyStr_date : PyStr Date.date := Time.isoformat.

(** [class Field]: one optional value, [None] when unset. *)
Module Field.

Record t (T : Type) : Type := make { value : option T }.
Arguments make {T} value.
Arguments value {T} _.

Definition __str__ {T : Type} `{PyStr T} (self : t T) : string :=
  match value self with
  | None => EmptyString
  | Some v => py_str v
  end.

End Field.

(** [class Name(Field): pass] *)
Module Name.

Definition t : Type := Field.t string.

Definition __init__ (v : option string) : result t := Ok (Field.make v).

End Name.

(** [class Phone(Field)]: texts are the only values the setter is given
    here, so its [isinstance] test never raises. *)
Module Phone.

Definition t : Type := Field.t string.

(** [re.compile(r"^\d{10}$")] *)
Definition MATCH_PATTERN : Re.re :=
  Re.Cat Re.Bol (Re.Cat (Re.Rep 10 (Re.Cls Str.isdigit)) Re.Eol).

(** The [value] setter; on success the field holds the new value. *)
Definition set_value (new_value : option string) : result t :=
  match new_value with
  | None => Ok (Field.make None)
  | Some v =>
      match Re.fullmatch MATCH_PATTERN v with
      | None =>
          Raise (ValueError "The telephone number must contain exactly 10 digits")
      | Some _ => Ok (Field.make (Some v))
      end
  end.

Definition __init__ (v : option string) : result t :=
  match v with
  | None => Ok (Field.make None)
  | Some _ => set_value v
  end.

End Phone.

(** [class Birthday(Field)]: the value is the parsed [date]. *)
Module Birthday.

Definition t : Type := Field.t Date.date.

(** The [value] setter: [strptime] errors are raised again with the
    program's own message. *)
Definition set_value (new_value : option string) : result t :=
  match new_value with
  | None => Ok (Field.make None)
  | Some v =>
      match Time.strptime v DATE_STR_PATTERN with
      | Ok d => Ok (Field.make (Some d))
      | Raise (ValueError _) =>
          Raise (ValueError "Invalid date format. Use DD.MM.YYYY")
      | Raise e => Raise e
      end
  end.

Definition __init__ (v : option string) : result t :=
  match v with
  | None => Ok (Field.make None)
  | Some _ => set_value v
  end.

End Birthday.

(** [class Record]. A method that mutates the record returns the record as
    it is after the call, next to its Python result; when it raises, the
    record is left as it was. *)
Module ContactRecord.

Record t : Type := make {
  name : Name.t;
  phones : list Phone.t;
  birthday : option Birthday.t
}.

Definition __init__ (name : option string) : result t :=
  n <- Name.__init__ name ;;
  Ok (make n [] None).

Definition add_phone (self : t) (value : option string) : result t :=
  p <- Phone.__init__ value ;;
  Ok (make (name self) (phones self ++ [p]) (birthday self)).

(** [phone.value == value] *)
Definition value_eqb (a b : option string) : bool :=
  match a, b with
  | None, None => true
  | Some x, Some y => String.eqb x y
  | _, _ => false
  end.

Definition has_value (value : option string) (phone : Phone.t) : bool :=
  value_eqb (Field.value phone) value.

Definition find_phone (self : t) (value : option string) : option Phone.t :=
  find (has_value value) (phones self).

(** The phone [find_phone] returns is the first one with that value; the
    two functions below act on that element of the list. *)
Fixpoint remove_first (value : option string) (l : list Phone.t) : list Phone.t :=
  match l with
  | [] => []
  | p :: l' => if has_value value p then l' else p :: remove_first value l'
  end.

Fixpoint assign_first (value : option string) (p' : Phone.t) (l : list Phone.t)
  : list Phone.t :=
  match l with
  | [] => []
  | p :: l' =>
      if has_value value p then p' :: l' else p :: assign_first value p' l'
  end.

Definition remove_phone (self : t) (value : option string) : bool * t :=
  match find_phone self value with
  | None => (false, self)
  | Some _ =>
      (true, make (name self) (remove_first value (phones self)) (birthday self))
  end.

Definition edit_phone (self : t) (old_value new_value : option string)
  : result (bool * t) :=
  match find_phone self old_value with
  | None => Ok (false, self)
  | Some _ =>
      p' <- Phone.set_value new_value ;;
      Ok (true,
          make (name self) (assign_first old_value p' (phones self))
               (birthday self))
  end.

Definition add_birthday (self : t) (value : option string) : result t :=
  b <- Birthday.__init__ value ;;
  Ok (make (name self) (phones self) (Some b)).

End ContactRecord.

(** [dict] with [str] keys: entries in insertion order, one per key. *)
Module Dict.

Section WithValue.

Context {V : Type}.

Definition t : Type := list (string * V).

Definition keys (d : t) : list string := map fst d.

Fixpoint get (k : string) (d : t) : option V :=
  match d with
  | [] => None
  | (k', v) :: d' => if String.eqb k' k then Some v else get k d'
  end.

Definition contains (k : string) (d : t) : bool :=
  match get k d with Some _ => true | None => false end.

(** [d[k] = v]: an existing key keeps its place, a new one goes last. *)
Fixpoint setitem (k : string) (v : V) (d : t) : t :=
  match d with
  | [] => [(k, v)]
  | (k', v') :: d' =>
      if String.eqb k' k then (k', v) :: d' else (k', v') :: setitem k v d'
  end.

(** [del d[k]] for a key that is present *)
Fixpoint delitem (k : string) (d : t) : t :=
  match d with
  | [] => []
  | (k', v') :: d' =>
      if String.eqb k' k then d' else (k', v') :: delitem k d'
  end.

End WithValue.

Arguments t V : clear implicits.

End Dict.

(** [class AddressBook(UserDict)] *)
Module AddressBook.

(** [self.data] *)
Definition t : Type := Dict.t ContactRecord.t.

Definition empty : t := [].

(** [name.strip().lower()] *)
Definition normalize (name : string) : string := Str.lower (Str.strip name).

Definition add_record (self : t) (record : ContactRecord.t) : result t :=
  match Field.value (ContactRecord.name record) with
  | None => Raise (AttributeError "'NoneType' object has no attribute 'strip'")
  | Some n =>
      let key := normalize n in
      Ok (Dict.setitem key record self)
  end.

Definition find (self : t) (name : string) : option ContactRecord.t :=
  let norm := normalize name in
  Dict.get norm self.

Definition delete (self : t) (name : string) : t :=
  let normalized_name := normalize name in
  if Dict.contains normalized_name self then Dict.delitem normalized_name self
  else self.

(** One element of the list [get_upcoming_birthdays] returns. *)
Record item : Type := mkitem {
  item_name : option string;
  congratulation_date : string
}.

Section Upcoming.

Context `{Libc}.

(** [date(now.year, bday.month, bday.day)], or next year's when that is
    before [now]. *)
Definition candidate_of (now bday : Date.date) : result Date.date :=
  candidate <- Date.new (Date.year now) (Date.month bday) (Date.day bday) ;;
  if Date.lt candidate now then
    Date.new (Date.year now + 1) (Date.month bday) (Date.day bday)
  else Ok candidate.

Definition adjusted_of (candidate : Date.date) : result Date.date :=
  if Date.weekday candidate =? 5 then Date.add_days candidate 2
  else if Date.weekday candidate =? 6 then Date.add_days candidate 1
  else Ok candidate.

(** The body of the loop, for one record of the directory. *)
Definition visit (now : Date.date) (value : ContactRecord.t)
  (result_ : list item) : result (list item) :=
  match ContactRecord.birthday value with
  | None => Ok result_
  | Some b =>
      match Field.value b with
      | None => Ok result_
      | Some bday =>
          candidate <- candidate_of now bday ;;
          adjusted <- adjusted_of candidate ;;
          let diff_date := Date.sub_days candidate now in
          if (0 <=? diff_date) && (diff_date <=? 7) then
            Ok (result_
                ++ [mkitem (Field.value (ContactRecord.name value))
                           (Time.strftime "%Y-%m-%d" adjusted)])
          else Ok result_
      end
  end.

Fixpoint loop (now : Date.date) (items : list (string * ContactRecord.t))
  (result_ : list item) : result (list item) :=
  match items with
  | [] => Ok result_
  | (_, value) :: items' =>
      result_' <- visit now value result_ ;;
      loop now items' result_'
  end.

(** [now] stands for [datetime.today().date()]. *)
Definition get_upcoming_birthdays (self : t) (now : Date.date)
  : result (list item) :=
  loop now self [].

End Upcoming.

End AddressBook.

(** A C library that pads [%Y] to four digits. *)
#[global] Instance libc_padding : Libc :=
  {| strftime_Y := Str.zfill 4; strftime_Y_four := fun _ _ => eq_refl |}.

(** * Specification-side definitions *)

(** Finite ranges of integers, for the properties checked by enumeration. *)
Definition Zrange (lo : Z) (k : nat) : list Z :=
  map (fun i => lo + Z.of_nat i) (seq 0 k).

Module StrSpec.

(** A text that does not start with white space. *)
Definition clean_head (s : string) : Prop :=
  match s with
  | EmptyString => True
  | String c _ => Str.isspace c = false
  end.

End StrSpec.

Module DateSpec.

Import Date.

(** The month and day of the [n]-th day (from 0) of a year, as the last
    lines of [_ord2ymd] compute them. *)
Definition month_day (leapyear : bool) (n : Z) : Z * Z :=
  let m := Z.shiftr (n + 50) 5 in
  let preceding :=
    tbl _DAYS_BEFORE_MONTH m + (if (2 <? m) && leapyear then 1 else 0) in
  if n <? preceding then
    let m := m - 1 in
    let preceding :=
      preceding
      - (tbl _DAYS_IN_MONTH m + (if (m =? 2) && leapyear then 1 else 0)) in
    (m, n - preceding + 1)
  else (m, n - preceding + 1).

Definition dim (leapyear : bool) (m : Z) : Z :=
  if (m =? 2) && leapyear then 29 else tbl _DAYS_IN_MONTH m.

Definition dbm (leapyear : bool) (m : Z) : Z :=
  tbl _DAYS_BEFORE_MONTH m + (if (2 <? m) && leapyear then 1 else 0).

Definition month_day_ok (leapyear : bool) (n : Z) : bool :=
  let '(m, d) := month_day leapyear n in
  (1 <=? m) && (m <=? 12) && (1 <=? d) && (d <=? dim leapyear m)
  && (dbm leapyear m + d =? n + 1).

(** Days from [b] to [a], counted on the calendar. *)
Definition days_between (a b : date) : Z := toordinal a - toordinal b.

(** The occurrence of a birthday relative to [now]: this year's month and
    day, or next year's when this year's is already past. *)
Definition occurrence (now bday : date) : date :=
  let this_year := mkdate (year now) (month bday) (day bday) in
  if days_between this_year now <? 0
  then mkdate (year now + 1) (month bday) (day bday)
  else this_year.

Definition diffDays (now bday : date) : Z :=
  days_between (occurrence now bday) now.

(** Saturday is weekday 5, Sunday 6. *)
Definition weekend_shift (wd : Z) : Z :=
  if wd =? 5 then 2 else if wd =? 6 then 1 else 0.

Definition is_feb29 (a : date) : bool := (month a =? 2) && (day a =? 29).

End DateSpec.

Module BookSpec.

Import Date DateSpec.

Definition birthday_value (r : ContactRecord.t) : option date :=
  match ContactRecord.birthday r with
  | Some b => Field.value b
  | None => None
  end.

Definition name_value (r : ContactRecord.t) : option string :=
  Field.value (ContactRecord.name r).

(** The contacts with a set birthday, in directory order. *)
Definition with_birthday (book : AddressBook.t) : list (ContactRecord.t * date) :=
  flat_map (fun kr => match birthday_value (snd kr) with
                      | Some bday => [(snd kr, bday)]
                      | None => []
                      end) book.

(** [0 <= diffDays <= 7] *)
Definition in_window (now : date) (rb : ContactRecord.t * date) : bool :=
  (0 <=? diffDays now (snd rb)) && (diffDays now (snd rb) <=? 7).

(** The month and day of the birthday exist in the year of [now], and in
    the next year when this year's date is past. *)
Definition occurrence_exists (now bday : date) : Prop :=
  valid (mkdate (year now) (month bday) (day bday))
  /\ valid (occurrence now bday).

(** Every stored birthday has its occurrence. *)
Definition all_exist (now : date) (book : AddressBook.t) : Prop :=
  Forall (fun rb => occurrence_exists now (snd rb)) (with_birthday book).

(** The celebration date of an occurrence: two days later for a Saturday,
    one day later for a Sunday, the occurrence itself otherwise. *)
Definition celebration (occ adj : date) : Prop :=
  valid adj
  /\ (weekday occ = 5 -> days_between adj occ = 2)
  /\ (weekday occ = 6 -> days_between adj occ = 1)
  /\ (weekday occ <> 5 -> weekday occ <> 6 -> adj = occ).

(** What the query reports for an included contact. *)
Definition reported `{Libc} (now : date) (rb : ContactRecord.t * date)
  (e : AddressBook.item) : Prop :=
  AddressBook.item_name e = name_value (fst rb)
  /\ exists adj,
       celebration (occurrence now (snd rb)) adj
       /\ AddressBook.congratulation_date e = Time.strftime "%Y-%m-%d" adj.

(** The date [adjusted_of] yields, as a total function. *)
Definition shifted (occ : date) : date :=
  match AddressBook.adjusted_of occ with
  | Ok a => a
  | Raise _ => occ
  end.

Definition item_of `{Libc} (now : date) (rb : ContactRecord.t * date)
  : AddressBook.item :=
  AddressBook.mkitem (name_value (fst rb))
    (Time.strftime "%Y-%m-%d" (shifted (occurrence now (snd rb)))).

(** A contact with the given name and birthday text, built with the
    program's own constructors. *)
Definition contact (n : string) (b : option string) : result ContactRecord.t :=
  r <- ContactRecord.__init__ (Some n) ;;
  match b with
  | None => Ok r
  | Some _ => ContactRecord.add_birthday r b
  end.

(** A directory built by adding the contacts in turn. *)
Fixpoint directory (l : list (string * option string)) (book : AddressBook.t)
  : result AddressBook.t :=
  match l with
  | [] => Ok book
  | (n, b) :: l' =>
      r <- contact n b ;;
      book' <- AddressBook.add_record book r ;;
      directory l' book'
  end.

End BookSpec.

(** Concrete directories used as examples. *)
Module Examples.

Import Date DateSpec BookSpec.

Definition or_empty (m : result AddressBook.t) : AddressBook.t :=
  match m with Ok b => b | Raise _ => [] end.

(** Saturday, 11 May 2024 *)
Definition saturday : date := mkdate 2024 5 11.

(** Birthdays today (a Saturday), in 7 days (a Saturday), tomorrow (a
    Sunday), on Tuesday, in 8 days, yesterday, and a contact without one. *)
Definition may_book : AddressBook.t :=
  Eval vm_compute in
    or_empty (directory
      [("Ann", Some "11.05.1990"); ("Bob", Some "18.05.1985");
       ("Cid", Some "12.05.2001"); ("Dan", Some "14.05.1977");
       ("Eve", Some "19.05.2000"); ("Fay", Some "10.05.1970");
       ("Gus", None)] []).

Definition may_items : list AddressBook.item :=
  [AddressBook.mkitem (Some "Ann") "2024-05-13";
   AddressBook.mkitem (Some "Bob") "2024-05-20";
   AddressBook.mkitem (Some "Cid") "2024-05-13";
   AddressBook.mkitem (Some "Dan") "2024-05-14"].

(** A contact born on 29 February next to one whose birthday is in 2 days. *)
Definition leap_book : AddressBook.t :=
  Eval vm_compute in
    or_empty (directory
      [("Ann", Some "05.01.2000"); ("Leo", Some "29.02.2000")] []).

Definition january : date := mkdate 2025 1 3.

(** In the last year of the calendar: a birthday in 2 days next to one
    that is already past. *)
Definition late_book : AddressBook.t :=
  Eval vm_compute in
    or_empty (directory
      [("Ann", Some "17.06.1990"); ("Old", Some "01.01.1990")] []).

Definition last_june : date := mkdate 9999 6 15.

End Examples.

Module FieldSpec.

(** The ten decimal digits. *)
Definition decimal_digit (c : ascii) : Prop :=
  In c (list_ascii_of_string "0123456789").

(** A text of exactly 10 decimal digits. *)
Definition ten_digits (s : string) : Prop :=
  String.length s = 10%nat /\ Forall decimal_digit (list_ascii_of_string s).

(** The text left after [n] characters of class [p], if [s] starts with
    that many. *)
Fixpoint skip_class (p : ascii -> bool) (n : nat) (s : string) : option string :=
  match n with
  | O => Some s
  | S n' =>
      match s with
      | String c s' => if p c then skip_class p n' s' else None
      | EmptyString => None
      end
  end.

(** A record with the given phones, built with the program's own
    constructors. *)
Fixpoint with_phones (r : ContactRecord.t) (l : list string)
  : result ContactRecord.t :=
  match l with
  | [] => Ok r
  | v :: l' =>
      r' <- ContactRecord.add_phone r (Some v) ;;
      with_phones r' l'
  end.

Definition or_blank (m : result ContactRecord.t) : ContactRecord.t :=
  match m with
  | Ok r => r
  | Raise _ => ContactRecord.make (Field.make None) [] None
  end.

Definition two_phones : ContactRecord.t :=
  Eval vm_compute in
    or_blank (r <- ContactRecord.__init__ (Some "Ann") ;;
              with_phones r ["1234567890"; "0987654321"]).

End FieldSpec.

Module DirectorySpec.

Import AddressBook.

(** Every key of the directory is its own normal form. *)
Definition keys_normalized (book : AddressBook.t) : Prop :=
  Forall (fun k => normalize k = k) (Dict.keys book).

(** A [dict] holds each key once. *)
Definition distinct_keys (book : AddressBook.t) : Prop := NoDup (Dict.keys book).

(** The entries stored under a key. *)
Definition entries_under (k : string) (book : AddressBook.t)
  : list (string * ContactRecord.t) :=
  filter (fun kr => String.eqb (fst kr) k) book.

Definition named (n : string) : ContactRecord.t :=
  ContactRecord.make (Field.make (Some n)) [] None.

End DirectorySpec.

(** What a pattern matches, stated without reference to the matcher:
    [denote r p w after g] holds when [r] matches the text [w] at position
    [p], followed by [after], with the groups [g]. *)
Module ReSpec.

Import Re.

Fixpoint denote (r : re) (p : nat) (w after : string) (g : groups) {struct r}
  : Prop :=
  match r with
  | Eps => w = EmptyString /\ g = []
  | Cls c => exists a, w = String a EmptyString /\ c a = true /\ g = []
  | Cat a b =>
      exists w1 w2 g1 g2,
        w = (w1 ++ w2)%string /\ g = g1 ++ g2
        /\ denote a p w1 (w2 ++ after)%string g1
        /\ denote b (p + String.length w1) w2 after g2
  | Or a b => denote a p w after g \/ denote b p w after g
  | Rep n a =>
      (fix rep (k p : nat) (w : string) (g : groups) {struct k} : Prop :=
         match k with
         | O => w = EmptyString /\ g = []
         | S k' =>
             exists w1 w2 g1 g2,
               w = (w1 ++ w2)%string /\ g = g1 ++ g2
               /\ denote a p w1 (w2 ++ after)%string g1
               /\ rep k' (p + String.length w1)%nat w2 g2
         end) n p w g
  | Bol => w = EmptyString /\ g = [] /\ p = O
  | Eol =>
      w = EmptyString /\ g = []
      /\ (after = EmptyString \/ after = String newline EmptyString)
  | Grp name a => exists g', denote a p w after g' /\ g = g' ++ [(name, w)]
  end.

(** [y] is reached from [x] by consuming [w] and recording [g]. *)
Definition step (x y : st) (w : string) (g : groups) : Prop :=
  rest x = (w ++ rest y)%string
  /\ pos y = (pos x + String.length w)%nat
  /\ caps y = caps x ++ g.

End ReSpec.

Module BirthdaySpec.

Import FieldSpec.

(** A text of exactly [n] decimal digits. *)
Definition digits (n : nat) (t : string) : Prop :=
  String.length t = n /\ Forall decimal_digit (list_ascii_of_string t).

(** The day is written with one or two digits, or a space and a digit. *)
Definition day_text (t : string) : Prop :=
  digits 1 t \/ digits 2 t
  \/ exists c, t = String " " (String c EmptyString) /\ decimal_digit c.

Definition month_text (t : string) : Prop := digits 1 t \/ digits 2 t.

Definition year_text (t : string) : Prop := digits 4 t.

(** Every fourth year is a leap year, except the centuries that are not
    multiples of 400. *)
Definition leap_year (y : Z) : bool :=
  if y mod 400 =? 0 then true
  else if y mod 100 =? 0 then false
  else y mod 4 =? 0.

Definition month_length (y m : Z) : Z :=
  if m =? 2 then (if leap_year y then 29 else 28)
  else if (m =? 4) || (m =? 6) || (m =? 9) || (m =? 11) then 30
  else 31.

(** A date of the calendar, in the years the program's dates cover. *)
Definition real_date (y m d : Z) : Prop :=
  1 <= y <= 9999 /\ 1 <= m <= 12 /\ 1 <= d <= month_length y m.

(** [day.month.year], each part a number text. *)
Definition dotted (s ds ms ys : string) : Prop :=
  s = (ds ++ "." ++ ms ++ "." ++ ys)%string.

(** The texts the birthday parser accepts, with the date they denote. *)
Definition accepted (s : string) (a : Date.date) : Prop :=
  exists ds ms ys,
    dotted s ds ms ys /\ day_text ds /\ month_text ms /\ year_text ys
    /\ real_date (Str.int ys) (Str.int ms) (Str.int ds)
    /\ a = Date.mkdate (Str.int ys) (Str.int ms) (Str.int ds).

(** The pattern DD.MM.YYYY: two digits, two digits, four digits. *)
Definition dd_mm_yyyy (s ds ms ys : string) : Prop :=
  dotted s ds ms ys /\ digits 2 ds /\ digits 2 ms /\ digits 4 ys.

(** A text without the character [.] *)
Definition no_dot (t : string) : Prop :=
  Forall (fun c => c <> "."%char) (list_ascii_of_string t).

(** The pattern compiled from [DATE_STR_PATTERN]. *)
Definition date_re : Re.re :=
  Re.Cat (Re.Grp "d" Time.re_d)
    (Re.Cat (Re.Cls (Str.is_char "."))
       (Re.Cat (Re.Grp "m" Time.re_m)
          (Re.Cat (Re.Cls (Str.is_char "."))
             (Re.Cat (Re.Grp "Y" Time.re_Y) Re.Eps)))).

Definition date_groups (ds ms ys : string) : Re.groups :=
  [("d"%char, ds); ("m"%char, ms); ("Y"%char, ys)].

Definition zfill2_ok (v : Z) : bool :=
  String.eqb (Str.zfill 2 v)
    (String (Str.chr (48 + v / 10)) (String (Str.chr (48 + v mod 10)) EmptyString)).

Definition zfill4_ok (v : Z) : bool :=
  String.eqb (Str.zfill 4 v)
    (String (Str.chr (48 + v / 1000))
       (String (Str.chr (48 + (v / 100) mod 10))
          (String (Str.chr (48 + (v / 10) mod 10))
             (String (Str.chr (48 + v mod 10)) EmptyString)))).

End BirthdaySpec.

(** ** The command handlers

    A handler reads and changes the directory and returns a text or raises.
    The record [book.find(name)] returns is the object stored under the
    normal form of [name]: a method that changes it changes the directory
    in that place ([mutate]). [add_contact] is the only caller of
    [add_record] and passes a new [Record], so no record sits under two
    keys. *)
Module Cli.

Definition M (A : Type) : Type := AddressBook.t -> result A * AddressBook.t.

Definition ret {A : Type} (a : A) : M A := fun book => (Ok a, book).

Definition raise {A : Type} (e : exn) : M A := fun book => (Raise e, book).

Definition lift {A : Type} (r : result A) : M A := fun book => (r, book).

Definition bindM {A B : Type} (m : M A) (k : A -> M B) : M B :=
  fun book =>
    match m book with
    | (Ok a, book') => k a book'
    | (Raise e, book') => (Raise e, book')
    end.

Notation "x <~ m ;; k" := (bindM m (fun x => k))
  (at level 61, m at next level, right associativity).

Definition get_book : M AddressBook.t := fun book => (Ok book, book).

Definition put_book (book' : AddressBook.t) : M unit := fun _ => (Ok tt, book').

(** The record found under [name] is now [record']. *)
Definition mutate (name : string) (record' : ContactRecord.t) : M unit :=
  fun book => (Ok tt, Dict.setitem (AddressBook.normalize name) record' book).

(** [needle in msg] *)
Fixpoint starts_with (needle s : string) : bool :=
  match needle, s with
  | EmptyString, _ => true
  | String a needle', String b s' => Ascii.eqb a b && starts_with needle' s'
  | String _ _, EmptyString => false
  end.

Fixpoint contains (needle s : string) : bool :=
  starts_with needle s
  || match s with
     | EmptyString => false
     | String _ s' => contains needle s'
     end.

Definition replacements : list (string * string) :=
  [("not enough values to unpack", "Not enough arguments.");
   ("too many values to unpack", "Too many arguments.")].

Fixpoint humanize (l : list (string * string)) (msg : string) : string :=
  match l with
  | [] => msg
  | (needle, human) :: l' =>
      if contains needle msg then human else humanize l' msg
  end.

Definition NO_CONTACT : string := "No such contact in the address book.".

(** What [input_error] catches: a [KeyError], with its [str(e)], or one of
    the exceptions of [exn]. No function of the program raises [KeyError]. *)
Inductive caught : Type :=
| KeyError (text : string)
| Other (e : exn).

Definition handle (e : caught) : string :=
  match e with
  | KeyError text =>
      match text with
      | EmptyString => NO_CONTACT
      | _ => text
      end
  | Other (ValueError msg) => humanize replacements msg
  | Other (AttributeError _) => NO_CONTACT
  | Other _ => "An unexpected error occurred. Please try again."
  end.

(** The decorator: the decorated function returns the text of the function,
    or the text for what it raised; changes made to the directory before
    the exception stay. *)
Definition input_error {A : Type} (func : A -> M string) (args : A)
  (book : AddressBook.t) : string * AddressBook.t :=
  match func args book with
  | (Ok text, book') => (text, book')
  | (Raise e, book') => (handle (Other e), book')
  end.

(** ["; ".join(...)]: every item must be a text. *)
Fixpoint join (sep : string) (l : list (option string)) : result string :=
  match l with
  | [] => Ok EmptyString
  | None :: _ => Raise (TypeError "sequence item: expected str instance, NoneType found")
  | Some x :: l' =>
      match l' with
      | [] => Ok x
      | _ => rest <- join sep l' ;; Ok (x ++ sep ++ rest)%string
      end
  end.

(** The functions as written, before [@input_error]. The last branch of
    each unpacking is not reached after the test of [len(args)]. *)
Module Body.

Definition add_contact (args : list string) : M string :=
  if (List.length args <? 2)%nat then
    raise (ValueError "Format: add <name> <phone>")
  else
    match args with
    | name :: phone :: _ =>
        book <~ get_book ;;
        match AddressBook.find book name with
        | Some record =>
            record' <~ lift (ContactRecord.add_phone record (Some phone)) ;;
            _ <~ mutate name record' ;;
            ret "Contact updated."
        | None =>
            record <~ lift (ContactRecord.__init__ (Some name)) ;;
            book1 <~ lift (AddressBook.add_record book record) ;;
            _ <~ put_book book1 ;;
            record' <~ lift (ContactRecord.add_phone record (Some phone)) ;;
            _ <~ mutate name record' ;;
            ret "Contact added."
        end
    | _ => raise (ValueError "not enough values to unpack (expected at least 2)")
    end.

Definition change_contact (args : list string) : M string :=
  if (List.length args <? 3)%nat then
    raise (ValueError "Format: change <name> <old_phone> <new_phone>")
  else
    match args with
    | name :: old_phone :: new_phone :: _ =>
        book <~ get_book ;;
        match AddressBook.find book name with
        | None =>
            raise (AttributeError
                     "'NoneType' object has no attribute 'edit_phone'")
        | Some record =>
            res <~ lift (ContactRecord.edit_phone record (Some old_phone)
                           (Some new_phone)) ;;
            _ <~ mutate name (snd res) ;;
            ret (if fst res then "Contact updated." else "Old phone not found.")
        end
    | _ => raise (ValueError "not enough values to unpack (expected at least 3)")
    end.

Definition show_phone (args : list string) : M string :=
  match args with
  | [] => raise (ValueError "Format: phone <name>")
  | [name] =>
      book <~ get_book ;;
      match AddressBook.find book name with
      | None =>
          raise (AttributeError "'NoneType' object has no attribute 'phones'")
      | Some record =>
          match ContactRecord.phones record with
          | [] => ret "No phones"
          | phones => lift (join "; " (map Field.value phones))
          end
      end
  | _ => raise (ValueError "too many values to unpack (expected 1)")
  end.

Definition add_birthday (args : list string) : M string :=
  if (List.length args <? 2)%nat then
    raise (ValueError "Format: add-birthday <name> <DD.MM.YYYY>")
  else
    match args with
    | name :: birthday :: _ =>
        book <~ get_book ;;
        match AddressBook.find book name with
        | None =>
            raise (AttributeError
                     "'NoneType' object has no attribute 'add_birthday'")
        | Some record =>
            record' <~ lift (ContactRecord.add_birthday record (Some birthday)) ;;
            _ <~ mutate name record' ;;
            ret "Birthday added."
        end
    | _ => raise (ValueError "not enough values to unpack (expected at least 2)")
    end.

Definition show_birthday `{Libc} (args : list string) : M string :=
  match args with
  | [] => raise (ValueError "Format: show-birthday <name>")
  | name :: _ =>
      book <~ get_book ;;
      match AddressBook.find book name with
      | None =>
          raise (AttributeError "'NoneType' object has no attribute 'birthday'")
      | Some record =>
          match ContactRecord.birthday record with
          | None => ret "No birthday set."
          | Some b =>
              match Field.value b with
              | None => ret "No birthday set."
              | Some d => ret (Time.strftime DATE_STR_PATTERN d)
              end
          end
      end
  end.

End Body.

Definition add_contact : list string -> AddressBook.t -> string * AddressBook.t :=
  input_error Body.add_contact.

Definition change_contact : list string -> AddressBook.t -> string * AddressBook.t :=
  input_error Body.change_contact.

Definition show_phone : list string -> AddressBook.t -> string * AddressBook.t :=
  input_error Body.show_phone.

Definition add_birthday : list string -> AddressBook.t -> string * AddressBook.t :=
  input_error Body.add_birthday.

Definition show_birthday `{Libc}
  : list string -> AddressBook.t -> string * AddressBook.t :=
  input_error Body.show_birthday.

End Cli.

Module CliSpec.

Import AddressBook DirectorySpec.

(** What every command keeps: keys in normal form, keys distinct, and every
    name that found a contact still finds one. *)
Definition kept (book book' : AddressBook.t) : Prop :=
  (keys_normalized book -> keys_normalized book')
  /\ (distinct_keys book -> distinct_keys book')
  /\ forall m, find book m <> None -> find book' m <> None.

(** The phones with the given numbers. *)
Definition phones_of (l : list string) : list Phone.t :=
  map (fun s => Field.make (Some s)) l.

End CliSpec.

(** * Theorems *)

Module DateFacts.
Import Date DateSpec.

Ltac zdiv := Z.to_euclidean_division_equations; lia.

Lemma Zrange_In lo k n : lo <= n < lo + Z.of_nat k -> In n (Zrange lo k).
Proof.
  intros Hn. unfold Zrange. apply in_map_iff.
  exists (Z.to_nat (n - lo)). split; [lia|].
  apply in_seq. lia.
Qed.

Lemma forallb_Zrange (f : Z -> bool) lo k :
  forallb f (Zrange lo k) = true ->
  forall n, lo <= n < lo + Z.of_nat k -> f n = true.
Proof.
  intros Hall n Hn. rewrite forallb_forall in Hall.
  apply Hall, Zrange_In, Hn.
Qed.

Lemma month_day_spec (leapyear : bool) (n : Z) :
  0 <= n < 365 + (if leapyear then 1 else 0) ->
  month_day_ok leapyear n = true.
Proof.
  intros Hn. destruct leapyear.
  - apply (forallb_Zrange (month_day_ok true) 0 366%nat); [vm_compute; reflexivity | lia].
  - apply (forallb_Zrange (month_day_ok false) 0 365%nat); [vm_compute; reflexivity | lia].
Qed.

Lemma is_leap_spec y :
  _is_leap y = true <-> (y mod 4 = 0 /\ (y mod 100 <> 0 \/ y mod 400 = 0)).
Proof.
  unfold _is_leap. rewrite andb_true_iff, orb_true_iff, negb_true_iff.
  rewrite !Z.eqb_eq, Z.eqb_neq. tauto.
Qed.

Lemma ord2ymd_unfold n :
  _ord2ymd n =
  (let n0 := n - 1 in
   let n400 := n0 / 146097 in
   let r400 := n0 mod 146097 in
   let n100 := r400 / 36524 in
   let r100 := r400 mod 36524 in
   let n4 := r100 / 1461 in
   let r4 := r100 mod 1461 in
   let n1 := r4 / 365 in
   let r1 := r4 mod 365 in
   let y := n400 * 400 + 1 + n100 * 100 + n4 * 4 + n1 in
   if (n1 =? 4) || (n100 =? 4) then (y - 1, 12, 31)
   else
     let leapyear := (n1 =? 3) && (negb (n4 =? 24) || (n100 =? 3)) in
     let '(m, d) := month_day leapyear r1 in (y, m, d)).
Proof.
  unfold _ord2ymd, month_day, _DI400Y, _DI100Y, _DI4Y. cbv zeta.
  repeat match goal with |- context [if ?b then _ else _] => destruct b end; reflexivity.
Qed.


Lemma days_before_year_decomp a b c e :
  0 <= a -> 0 <= b <= 3 -> 0 <= c <= 24 -> 0 <= e <= 3 ->
  _days_before_year (400 * a + 100 * b + 4 * c + e + 1)
  = 146097 * a + 36524 * b + 1461 * c + 365 * e.
Proof. intros. unfold _days_before_year. zdiv. Qed.

Lemma is_leap_decomp a b c e :
  0 <= a -> 0 <= b <= 3 -> 0 <= c <= 24 -> 0 <= e <= 3 ->
  _is_leap (400 * a + 100 * b + 4 * c + e + 1)
  = (e =? 3) && (negb (c =? 24) || (b =? 3)).
Proof.
  intros. apply eq_true_iff_eq.
  rewrite is_leap_spec, andb_true_iff, orb_true_iff, negb_true_iff.
  rewrite !Z.eqb_eq, Z.eqb_neq. zdiv.
Qed.

Lemma days_in_month_dim y m : _days_in_month y m = dim (_is_leap y) m.
Proof. reflexivity. Qed.

Lemma days_before_month_dbm y m : _days_before_month y m = dbm (_is_leap y) m.
Proof. reflexivity. Qed.

Theorem ord2ymd_spec n :
  1 <= n <= _MAXORDINAL ->
  let '(y, m, d) := _ord2ymd n in
  _ymd2ord y m d = n /\ MINYEAR <= y <= MAXYEAR /\ 1 <= m <= 12
  /\ 1 <= d <= _days_in_month y m.
Proof.
  intros Hn. rewrite ord2ymd_unfold. cbv zeta.
  unfold _MAXORDINAL, MINYEAR, MAXYEAR in *.
  set (n0 := n - 1).
  set (n400 := n0 / 146097). set (r400 := n0 mod 146097).
  set (n100 := r400 / 36524). set (r100 := r400 mod 36524).
  set (n4 := r100 / 1461). set (r4 := r100 mod 1461).
  set (n1 := r4 / 365). set (r1 := r4 mod 365).
  assert (E400 : n0 = 146097 * n400 + r400 /\ 0 <= r400 < 146097) by (subst n400 r400; zdiv).
  assert (E100 : r400 = 36524 * n100 + r100 /\ 0 <= r100 < 36524) by (subst n100 r100; zdiv).
  assert (E4 : r100 = 1461 * n4 + r4 /\ 0 <= r4 < 1461) by (subst n4 r4; zdiv).
  assert (E1 : r4 = 365 * n1 + r1 /\ 0 <= r1 < 365) by (subst n1 r1; zdiv).
  assert (En0 : n0 = n - 1) by reflexivity.
  clearbody n0 n400 r400 n100 r100 n4 r4 n1 r1.
  assert (B : 0 <= n400 <= 24 /\ 0 <= n100 <= 4 /\ 0 <= n4 <= 24 /\ 0 <= n1 <= 4) by lia.
  destruct ((n1 =? 4) || (n100 =? 4)) eqn:Elast.
  - apply orb_true_iff in Elast. rewrite !Z.eqb_eq in Elast.
    assert (Ey : exists b c, 0 <= b <= 3 /\ 0 <= c <= 24 /\ (c <> 24 \/ b = 3)
               /\ n400 * 400 + 1 + n100 * 100 + n4 * 4 + n1 - 1
                  = 400 * n400 + 100 * b + 4 * c + 3 + 1
               /\ n0 = 146097 * n400 + 36524 * b + 1461 * c + 1460).
    { destruct Elast as [E|E].
      - destruct (Z.eq_dec n100 4) as [E'|E'].
        + exists 3, 24. lia.
        + exists n100, n4. lia.
      - exists 3, 24. lia. }
    destruct Ey as (b & c & Hb & Hc & Hcb & -> & Hn0).
    unfold _ymd2ord. rewrite days_in_month_dim, days_before_month_dbm.
    rewrite is_leap_decomp, days_before_year_decomp by lia.
    replace (3 =? 3) with true by reflexivity.
    assert (Hleap : negb (c =? 24) || (b =? 3) = true).
    { destruct Hcb as [Hc24| ->]; [|now rewrite orb_true_r].
      apply Z.eqb_neq in Hc24. now rewrite Hc24. }
    cbn [andb]. rewrite Hleap.
    change (dbm true 12) with 335. change (dim true 12) with 31. lia.
  - apply orb_false_iff in Elast. rewrite !Z.eqb_neq in Elast.
    set (leapyear := (n1 =? 3) && (negb (n4 =? 24) || (n100 =? 3))).
    pose proof (month_day_spec leapyear r1) as Hmd.
    unfold month_day_ok in Hmd.
    destruct (month_day leapyear r1) as [m d].
    assert (Hr1 : 0 <= r1 < 365 + (if leapyear then 1 else 0)) by (destruct leapyear; lia).
    specialize (Hmd Hr1).
    rewrite !andb_true_iff in Hmd. 
    destruct Hmd as ((((Hm1 & Hm12) & Hd1) & Hdim) & Hdbm).
    apply Z.leb_le in Hm1, Hm12, Hd1, Hdim. apply Z.eqb_eq in Hdbm.
    replace (n400 * 400 + 1 + n100 * 100 + n4 * 4 + n1)
      with (400 * n400 + 100 * n100 + 4 * n4 + n1 + 1) by lia.
    unfold _ymd2ord. rewrite days_in_month_dim, days_before_month_dbm.
    rewrite is_leap_decomp, days_before_year_decomp by lia.
    fold leapyear. lia.
Qed.

Lemma toordinal_fromordinal n :
  1 <= n <= _MAXORDINAL -> toordinal (fromordinal n) = n.
Proof.
  intros Hn. pose proof (ord2ymd_spec n Hn) as H.
  unfold fromordinal, toordinal. destruct (_ord2ymd n) as [[y m] d].
  cbn. tauto.
Qed.

Lemma fromordinal_valid n :
  1 <= n <= _MAXORDINAL -> valid (fromordinal n).
Proof.
  intros Hn. pose proof (ord2ymd_spec n Hn) as H.
  unfold fromordinal, valid. destruct (_ord2ymd n) as [[y m] d].
  cbn. tauto.
Qed.


Lemma new_ok y m d :
  valid (mkdate y m d) -> new y m d = Ok (mkdate y m d).
Proof.
  unfold valid, new. cbn. intros (Hy & Hm & Hd).
  replace ((MINYEAR <=? y) && (y <=? MAXYEAR)) with true
    by (symmetry; apply andb_true_iff; split; apply Z.leb_le; lia).
  replace ((1 <=? m) && (m <=? 12)) with true
    by (symmetry; apply andb_true_iff; split; apply Z.leb_le; lia).
  replace ((1 <=? d) && (d <=? _days_in_month y m)) with true
    by (symmetry; apply andb_true_iff; split; apply Z.leb_le; lia).
  reflexivity.
Qed.

Lemma new_inv y m d a :
  new y m d = Ok a -> a = mkdate y m d /\ valid a.
Proof.
  unfold new, valid.
  destruct ((MINYEAR <=? y) && (y <=? MAXYEAR)) eqn:Ey; [|discriminate].
  destruct ((1 <=? m) && (m <=? 12)) eqn:Em; [|discriminate].
  destruct ((1 <=? d) && (d <=? _days_in_month y m)) eqn:Ed; [|discriminate].
  cbn. intros [= <-]. cbn.
  apply andb_true_iff in Ey, Em, Ed. rewrite !Z.leb_le in *. tauto.
Qed.

Lemma new_raises y m d :
  ~ valid (mkdate y m d) -> exists msg, new y m d = Raise (ValueError msg).
Proof.
  intros Hnv. destruct (new y m d) as [a|e] eqn:E.
  - apply new_inv in E as [-> Hv]. contradiction.
  - unfold new in E.
    repeat match type of E with
           | (if ?b then _ else _) = _ => destruct b
           end; inversion E; eauto.
Qed.

Lemma month_cases m :
  1 <= m <= 12 ->
  m = 1 \/ m = 2 \/ m = 3 \/ m = 4 \/ m = 5 \/ m = 6 \/ m = 7 \/ m = 8
  \/ m = 9 \/ m = 10 \/ m = 11 \/ m = 12.
Proof. lia. Qed.

Ltac by_month H :=
  destruct (month_cases _ H) as
    [->|[->|[->|[->|[->|[->|[->|[->|[->|[->|[->| ->]]]]]]]]]]].

Ltac eval_tables :=
  repeat match goal with
    | H : context [dim ?l ?m] |- _ =>
        let v := eval vm_compute in (dim l m) in change (dim l m) with v in H
    | H : context [dbm ?l ?m] |- _ =>
        let v := eval vm_compute in (dbm l m) in change (dbm l m) with v in H
    | |- context [dim ?l ?m] =>
        let v := eval vm_compute in (dim l m) in change (dim l m) with v
    | |- context [dbm ?l ?m] =>
        let v := eval vm_compute in (dbm l m) in change (dbm l m) with v
    end.

(** Within a year: the day count is between 1 and the length of the year. *)
Lemma yday_bounds (leap : bool) m d :
  1 <= m <= 12 -> 1 <= d <= dim leap m ->
  1 <= dbm leap m + d <= 365 + (if leap then 1 else 0).
Proof.
  intros Hm Hd. by_month Hm; destruct leap; eval_tables; lia.
Qed.

Lemma days_before_year_next y :
  _days_before_year (y + 1)
  = _days_before_year y + 365 + (if _is_leap y then 1 else 0).
Proof.
  unfold _days_before_year.
  destruct (_is_leap y) eqn:E.
  - apply is_leap_spec in E. zdiv.
  - assert (H : ~ (y mod 4 = 0 /\ (y mod 100 <> 0 \/ y mod 400 = 0))).
    { rewrite <- is_leap_spec, E. discriminate. }
    zdiv.
Qed.

Lemma days_before_year_mono y1 y2 :
  y1 < y2 ->
  _days_before_year y1 + 365 + (if _is_leap y1 then 1 else 0)
  <= _days_before_year y2.
Proof.
  intros Hlt.
  assert (H : forall k : nat,
             _days_before_year y1 + 365 + (if _is_leap y1 then 1 else 0)
             <= _days_before_year (y1 + 1 + Z.of_nat k)).
  { induction k as [|k IH].
    - rewrite Z.add_0_r, days_before_year_next. lia.
    - replace (y1 + 1 + Z.of_nat (S k)) with (y1 + 1 + Z.of_nat k + 1) by lia.
      rewrite days_before_year_next.
      destruct (_is_leap (y1 + 1 + Z.of_nat k)); lia. }
  specialize (H (Z.to_nat (y2 - y1 - 1))).
  replace (y1 + 1 + Z.of_nat (Z.to_nat (y2 - y1 - 1))) with y2 in H by lia.
  exact H.
Qed.

Lemma toordinal_bounds a :
  valid a -> 1 <= toordinal a <= _MAXORDINAL.
Proof.
  intros (Hy & Hm & Hd). unfold toordinal, _ymd2ord.
  rewrite days_in_month_dim in Hd. rewrite days_before_month_dbm.
  pose proof (yday_bounds _ _ _ Hm Hd) as Hyd.
  unfold MINYEAR, MAXYEAR in Hy.
  assert (H1 : 0 <= _days_before_year (year a)).
  { unfold _days_before_year. zdiv. }
  split; [lia|].
  destruct (Z.eq_dec (year a) 9999) as [E|E].
  - rewrite E in *. change (_is_leap 9999) with false in *. cbv iota in Hyd.
    change (_days_before_year 9999) with 3651694. unfold _MAXORDINAL. lia.
  - pose proof (days_before_year_mono (year a) 9999 ltac:(lia)) as Hmono.
    change (_days_before_year 9999) with 3651694 in Hmono.
    unfold _MAXORDINAL. destruct (_is_leap (year a)); lia.
Qed.

Lemma dbm_mono (leap : bool) m1 m2 :
  1 <= m1 <= 12 -> 1 <= m2 <= 12 -> m1 < m2 ->
  dbm leap m1 + dim leap m1 <= dbm leap m2.
Proof.
  intros H1 H2 Hlt.
  by_month H1; by_month H2; try lia; destruct leap; eval_tables; lia.
Qed.

(** The order of dates is the order of their day numbers. *)
Lemma lt_toordinal a b :
  valid a -> valid b -> lt a b = (toordinal a <? toordinal b).
Proof.
  intros (Hya & Hma & Hda) (Hyb & Hmb & Hdb).
  rewrite days_in_month_dim in Hda, Hdb.
  pose proof (yday_bounds _ _ _ Hma Hda) as Ha.
  pose proof (yday_bounds _ _ _ Hmb Hdb) as Hb.
  unfold lt, toordinal, _ymd2ord. rewrite !days_before_month_dbm.
  destruct (Z.ltb_spec (year a) (year b)) as [Hy|Hy]; cbn [orb].
  { pose proof (days_before_year_mono _ _ Hy).
    symmetry. apply Z.ltb_lt. lia. }
  destruct (Z.eqb_spec (year a) (year b)) as [Ey|Ey]; cbn [andb].
  2:{ assert (Hy' : year b < year a) by lia.
      pose proof (days_before_year_mono _ _ Hy').
      symmetry. apply Z.ltb_ge. lia. }
  rewrite Ey in *. set (leap := _is_leap (year b)) in *.
  destruct (Z.ltb_spec (month a) (month b)) as [Hm|Hm]; cbn [orb].
  { symmetry. apply Z.ltb_lt.
    pose proof (dbm_mono leap _ _ Hma Hmb Hm). lia. }
  destruct (Z.eqb_spec (month a) (month b)) as [Em|Em]; cbn [andb].
  { rewrite Em. destruct (Z.ltb_spec (day a) (day b)); symmetry;
      [apply Z.ltb_lt | apply Z.ltb_ge]; lia. }
  symmetry. apply Z.ltb_ge.
  assert (Hm' : month b < month a) by lia.
  pose proof (dbm_mono leap _ _ Hmb Hma Hm'). lia.
Qed.

Lemma toordinal_inj a b :
  valid a -> valid b -> toordinal a = toordinal b -> a = b.
Proof.
  intros Ha Hb E.
  assert (La : lt a b = false) by (rewrite lt_toordinal by assumption; apply Z.ltb_ge; lia).
  assert (Lb : lt b a = false) by (rewrite lt_toordinal by assumption; apply Z.ltb_ge; lia).
  unfold lt in La, Lb.
  destruct a as [ya ma da], b as [yb mb db]. cbn in *.
  apply orb_false_iff in La as [La1 La2], Lb as [Lb1 Lb2].
  apply Z.ltb_ge in La1, Lb1.
  assert (ya = yb) by lia. subst yb.
  rewrite Z.eqb_refl in La2, Lb2. cbn in La2, Lb2.
  apply orb_false_iff in La2 as [La2 La3], Lb2 as [Lb2 Lb3].
  apply Z.ltb_ge in La2, Lb2.
  assert (ma = mb) by lia. subst mb.
  rewrite Z.eqb_refl in La3, Lb3. cbn in La3, Lb3.
  apply Z.ltb_ge in La3, Lb3. f_equal. lia.
Qed.

(** A weekend day is never one of the last two days of year 9999. *)
Lemma add_days_weekend a :
  valid a ->
  exists b, add_days a (weekend_shift (weekday a)) = Ok b /\ valid b
            /\ toordinal b = toordinal a + weekend_shift (weekday a).
Proof.
  intros Ha. pose proof (toordinal_bounds a Ha) as Hb.
  unfold _MAXORDINAL in Hb.
  assert (Hr : 1 <= toordinal a + weekend_shift (weekday a) <= _MAXORDINAL).
  { unfold weekend_shift, weekday, _MAXORDINAL.
    destruct (Z.eqb_spec ((toordinal a + 6) mod 7) 5);
      [|destruct (Z.eqb_spec ((toordinal a + 6) mod 7) 6)]; zdiv. }
  unfold add_days.
  replace ((0 <? toordinal a + weekend_shift (weekday a))
           && (toordinal a + weekend_shift (weekday a) <=? _MAXORDINAL))
    with true
    by (symmetry; apply andb_true_iff; split; [apply Z.ltb_lt | apply Z.leb_le]; lia).
  eexists. split; [reflexivity|]. split.
  - apply fromordinal_valid, Hr.
  - apply toordinal_fromordinal, Hr.
Qed.

(** A month and day other than 29 February exist in every year. *)
Lemma valid_other_year a y :
  valid a -> is_feb29 a = false -> MINYEAR <= y <= MAXYEAR ->
  valid (mkdate y (month a) (day a)).
Proof.
  intros (Hy & Hm & Hd) Hf Hy'. unfold valid. cbn.
  split; [exact Hy'|]. split; [exact Hm|].
  rewrite days_in_month_dim in *. unfold is_feb29 in Hf.
  destruct (Z.eqb_spec (month a) 2) as [E|E].
  - rewrite E in *. cbn in Hf. apply Z.eqb_neq in Hf.
    destruct (_is_leap (year a)), (_is_leap y); eval_tables; lia.
  - unfold dim in *.
    replace (month a =? 2) with false in * by (symmetry; apply Z.eqb_neq; exact E).
    cbn in *. exact Hd.
Qed.

End DateFacts.

Module UpcomingFacts.

Import Date DateSpec DateFacts BookSpec AddressBook.

Section WithLibc.

Context `{Libc}.

Lemma valid_dec a : {valid a} + {~ valid a}.
Proof.
  destruct (new (year a) (month a) (day a)) as [b|e] eqn:E.
  - left. apply new_inv in E as [-> Hv]. destruct a; exact Hv.
  - right. intros Hv. destruct a as [y m d]. cbn in E.
    rewrite (new_ok _ _ _ Hv) in E. discriminate.
Qed.

Lemma candidate_of_exists now bday :
  valid now -> occurrence_exists now bday ->
  candidate_of now bday = Ok (occurrence now bday).
Proof.
  intros Hnow [Hthis Hocc]. unfold candidate_of, occurrence in *.
  rewrite (new_ok _ _ _ Hthis). cbn [bind].
  rewrite (lt_toordinal _ _ Hthis Hnow).
  unfold days_between in *.
  replace (toordinal (mkdate (year now) (month bday) (day bday)) - toordinal now <? 0)
    with (toordinal (mkdate (year now) (month bday) (day bday)) <? toordinal now) in *
    by (destruct (Z.ltb_spec (toordinal (mkdate (year now) (month bday) (day bday))) (toordinal now));
        symmetry; [apply Z.ltb_lt | apply Z.ltb_ge]; lia).
  destruct (toordinal (mkdate (year now) (month bday) (day bday)) <? toordinal now).
  - apply new_ok, Hocc.
  - reflexivity.
Qed.

Lemma candidate_of_inv now bday c :
  valid now -> candidate_of now bday = Ok c ->
  occurrence_exists now bday /\ c = occurrence now bday.
Proof.
  intros Hnow E.
  assert (Hex : occurrence_exists now bday).
  { unfold candidate_of in E.
    destruct (new (year now) (month bday) (day bday)) as [c0|e] eqn:E0; [|discriminate].
    apply new_inv in E0 as [-> Hthis]. cbn [bind] in E.
    split; [exact Hthis|].
    unfold occurrence, days_between.
    rewrite (lt_toordinal _ _ Hthis Hnow) in E.
    replace (toordinal (mkdate (year now) (month bday) (day bday)) - toordinal now <? 0)
      with (toordinal (mkdate (year now) (month bday) (day bday)) <? toordinal now)
      by (destruct (Z.ltb_spec (toordinal (mkdate (year now) (month bday) (day bday))) (toordinal now));
          symmetry; [apply Z.ltb_lt | apply Z.ltb_ge]; lia).
    destruct (toordinal (mkdate (year now) (month bday) (day bday)) <? toordinal now).
    - apply new_inv in E as [-> Hv]. exact Hv.
    - exact Hthis. }
  split; [exact Hex|].
  rewrite (candidate_of_exists _ _ Hnow Hex) in E. congruence.
Qed.

Lemma candidate_of_raises now bday :
  valid now -> ~ occurrence_exists now bday ->
  exists msg, candidate_of now bday = Raise (ValueError msg).
Proof.
  intros Hnow Hne.
  destruct (candidate_of now bday) as [c|e] eqn:E.
  - apply candidate_of_inv in E as [Hex _]; [contradiction | exact Hnow].
  - unfold candidate_of in E.
    destruct (valid_dec (mkdate (year now) (month bday) (day bday))) as [Hv|Hv].
    + rewrite (new_ok _ _ _ Hv) in E. cbn [bind] in E.
      destruct (lt _ now); [|discriminate].
      destruct (valid_dec (mkdate (year now + 1) (month bday) (day bday))) as [Hv'|Hv'].
      * rewrite (new_ok _ _ _ Hv') in E. discriminate.
      * destruct (new_raises _ _ _ Hv') as [msg Hmsg].
        rewrite Hmsg in E. exists msg. congruence.
    + destruct (new_raises _ _ _ Hv) as [msg Hmsg].
      rewrite Hmsg in E. cbn in E. exists msg. congruence.
Qed.

Lemma adjusted_of_shift c :
  adjusted_of c = (if (weekday c =? 5) || (weekday c =? 6)
                   then add_days c (weekend_shift (weekday c)) else Ok c).
Proof.
  unfold adjusted_of, weekend_shift.
  destruct (weekday c =? 5); [reflexivity|].
  destruct (weekday c =? 6); reflexivity.
Qed.

Lemma adjusted_of_valid c :
  valid c ->
  exists a, adjusted_of c = Ok a /\ valid a
            /\ days_between a c = weekend_shift (weekday c)
            /\ (weekday c <> 5 -> weekday c <> 6 -> a = c).
Proof.
  intros Hc. rewrite adjusted_of_shift.
  destruct (add_days_weekend c Hc) as (b & Eb & Hb & Hord).
  destruct (Z.eqb_spec (weekday c) 5) as [E5|E5]; cbn [orb].
  { exists b. unfold days_between.
    split; [exact Eb|]. split; [exact Hb|]. split; [lia|]. contradiction. }
  destruct (Z.eqb_spec (weekday c) 6) as [E6|E6].
  { exists b. unfold days_between.
    split; [exact Eb|]. split; [exact Hb|]. split; [lia|]. contradiction. }
  exists c. unfold days_between, weekend_shift.
  replace (weekday c =? 5) with false by (symmetry; apply Z.eqb_neq; exact E5).
  replace (weekday c =? 6) with false by (symmetry; apply Z.eqb_neq; exact E6).
  split; [reflexivity|]. split; [exact Hc|]. split; [lia|]. reflexivity.
Qed.

Lemma shifted_celebration occ :
  valid occ -> adjusted_of occ = Ok (shifted occ) /\ celebration occ (shifted occ).
Proof.
  intros Hocc. destruct (adjusted_of_valid occ Hocc) as (a & Ea & Ha & Hd & Hsame).
  unfold shifted. rewrite Ea. split; [reflexivity|].
  unfold celebration. split; [exact Ha|].
  unfold weekend_shift in Hd. repeat split.
  - intros E. rewrite E in Hd. exact Hd.
  - intros E. rewrite E in Hd. exact Hd.
  - exact Hsame.
Qed.

(** One turn of the loop, for a record with a set birthday. *)
Lemma visit_birthday now r bday acc :
  valid now -> birthday_value r = Some bday -> occurrence_exists now bday ->
  visit now r acc
  = Ok (acc ++ (if in_window now (r, bday) then [item_of now (r, bday)] else [])).
Proof.
  intros Hnow Hb Hex. unfold visit. unfold birthday_value in Hb.
  destruct (ContactRecord.birthday r) as [b|]; [|discriminate].
  rewrite Hb. rewrite (candidate_of_exists _ _ Hnow Hex). cbn [bind].
  destruct (shifted_celebration _ (proj2 Hex)) as [Ea _].
  rewrite Ea. cbn [bind].
  unfold in_window, diffDays, days_between, sub_days, item_of, name_value. cbn [snd fst].
  destruct ((0 <=? _) && (_ <=? 7)); [reflexivity|].
  now rewrite app_nil_r.
Qed.

Lemma visit_no_birthday now r acc :
  birthday_value r = None -> visit now r acc = Ok acc.
Proof.
  unfold visit, birthday_value.
  destruct (ContactRecord.birthday r) as [b|]; [|reflexivity].
  now intros ->.
Qed.

Lemma visit_raises now r bday acc :
  valid now -> birthday_value r = Some bday -> ~ occurrence_exists now bday ->
  exists msg, visit now r acc = Raise (ValueError msg).
Proof.
  intros Hnow Hb Hne. unfold visit, birthday_value in *.
  destruct (ContactRecord.birthday r) as [b|]; [|discriminate].
  rewrite Hb. destruct (candidate_of_raises _ _ Hnow Hne) as [msg Hmsg].
  rewrite Hmsg. exists msg. reflexivity.
Qed.

Lemma visit_inv now r acc acc' :
  valid now -> visit now r acc = Ok acc' ->
  match birthday_value r with
  | None => acc' = acc
  | Some bday =>
      occurrence_exists now bday
      /\ acc' = acc ++ (if in_window now (r, bday) then [item_of now (r, bday)] else [])
  end.
Proof.
  intros Hnow E. destruct (birthday_value r) as [bday|] eqn:Hb.
  - assert (Hex : occurrence_exists now bday).
    { unfold visit, birthday_value in *.
      destruct (ContactRecord.birthday r) as [b|]; [|discriminate].
      rewrite Hb in E.
      destruct (candidate_of now bday) as [c|e] eqn:Ec; [|discriminate].
      apply (candidate_of_inv _ _ _ Hnow Ec). }
    split; [exact Hex|].
    rewrite (visit_birthday _ _ _ _ Hnow Hb Hex) in E. congruence.
  - rewrite (visit_no_birthday _ _ _ Hb) in E. congruence.
Qed.

Lemma loop_exists now items acc :
  valid now -> all_exist now items ->
  loop now items acc
  = Ok (acc ++ map (item_of now) (filter (in_window now) (with_birthday items))).
Proof.
  intros Hnow. revert acc. induction items as [|[k r] items IH]; intros acc Hall.
  - cbn. now rewrite app_nil_r.
  - cbn [loop]. unfold all_exist, with_birthday in Hall. cbn [flat_map snd] in Hall.
    unfold with_birthday. cbn [flat_map snd].
    destruct (birthday_value r) as [bday|] eqn:Hb.
    + cbn [app] in Hall. inversion Hall as [|? ? Hex Hrest]; subst.
      rewrite (visit_birthday _ _ _ _ Hnow Hb Hex). cbn [bind].
      rewrite (IH _ Hrest). cbn [app filter].
      destruct (in_window now (r, bday)); cbn [map]; rewrite <- app_assoc; reflexivity.
    + rewrite (visit_no_birthday _ _ _ Hb). cbn [bind app].
      apply IH, Hall.
Qed.

Lemma loop_inv now items acc res :
  valid now -> loop now items acc = Ok res -> all_exist now items.
Proof.
  intros Hnow. revert acc. induction items as [|[k r] items IH]; intros acc E.
  - constructor.
  - cbn [loop] in E.
    destruct (visit now r acc) as [acc'|e] eqn:Ev; [|discriminate].
    cbn [bind] in E. apply IH in E.
    apply (visit_inv _ _ _ _ Hnow) in Ev.
    unfold all_exist, with_birthday. cbn [flat_map snd].
    destruct (birthday_value r) as [bday|].
    + constructor; [apply Ev | exact E].
    + exact E.
Qed.

Lemma loop_raises now items acc :
  valid now -> ~ all_exist now items ->
  exists msg, loop now items acc = Raise (ValueError msg).
Proof.
  intros Hnow. revert acc. induction items as [|[k r] items IH]; intros acc Hne.
  - exfalso. apply Hne. constructor.
  - cbn [loop]. destruct (birthday_value r) as [bday|] eqn:Hb.
    + destruct (valid_dec (mkdate (year now) (month bday) (day bday))) as [Hv|Hv];
        [destruct (valid_dec (occurrence now bday)) as [Hv'|Hv']|].
      * rewrite (visit_birthday _ _ _ _ Hnow Hb (conj Hv Hv')). cbn [bind].
        apply IH. intros Hall. apply Hne.
        unfold all_exist, with_birthday. cbn [flat_map snd]. rewrite Hb.
        constructor; [exact (conj Hv Hv') | exact Hall].
      * destruct (visit_raises now r bday acc Hnow Hb) as [msg ->].
        { intros [_ Hx]. contradiction. }
        exists msg. reflexivity.
      * destruct (visit_raises now r bday acc Hnow Hb) as [msg ->].
        { intros [Hx _]. contradiction. }
        exists msg. reflexivity.
    + rewrite (visit_no_birthday _ _ _ Hb). cbn [bind].
      apply IH. intros Hall. apply Hne.
      unfold all_exist, with_birthday. cbn [flat_map snd]. rewrite Hb. exact Hall.
Qed.

(** Birthdays other than 29 February have their occurrence in every
    reference year before 9999. *)
Lemma occurrence_exists_plain now bday :
  valid now -> year now < MAXYEAR -> valid bday -> is_feb29 bday = false ->
  occurrence_exists now bday.
Proof.
  intros Hnow Hy Hb Hf. unfold occurrence_exists, occurrence.
  assert (Hy1 : MINYEAR <= year now <= MAXYEAR) by (destruct Hnow as [? _]; lia).
  assert (Hy2 : MINYEAR <= year now + 1 <= MAXYEAR)
    by (destruct Hnow as [? _]; unfold MINYEAR, MAXYEAR in *; lia).
  pose proof (valid_other_year bday (year now) Hb Hf Hy1).
  pose proof (valid_other_year bday (year now + 1) Hb Hf Hy2).
  split; [assumption|]. destruct (_ <? 0); assumption.
Qed.

(** 29 February has no occurrence relative to a year that is not leap. *)
Lemma feb29_no_occurrence now bday :
  is_feb29 bday = true -> _is_leap (year now) = false ->
  ~ occurrence_exists now bday.
Proof.
  unfold is_feb29. intros Hf Hleap [(_ & _ & Hd) _]. cbn in Hd.
  apply andb_true_iff in Hf as [Hm Hday]. apply Z.eqb_eq in Hm, Hday.
  rewrite Hm, Hday in Hd. unfold _days_in_month in Hd. rewrite Hleap in Hd.
  change (if (2 =? 2) && false then 29 else tbl _DAYS_IN_MONTH 2) with 28 in Hd.
  lia.
Qed.

Lemma feb29_raises book now r bday :
  valid now -> In (r, bday) (with_birthday book) ->
  is_feb29 bday = true -> _is_leap (year now) = false ->
  exists msg, get_upcoming_birthdays book now = Raise (ValueError msg).
Proof.
  intros Hnow Hin Hf Hleap. apply loop_raises; [exact Hnow|].
  intros Hall. unfold all_exist in Hall. rewrite Forall_forall in Hall.
  apply (feb29_no_occurrence now bday Hf Hleap), (Hall _ Hin).
Qed.

End WithLibc.

End UpcomingFacts.

Module UpcomingClaims.

Import Date DateSpec DateFacts BookSpec AddressBook UpcomingFacts Examples.

Lemma valid_validb a : validb a = true -> valid a.
Proof.
  unfold validb. destruct (new (year a) (month a) (day a)) as [b|e] eqn:E; [|discriminate].
  intros _. apply new_inv in E as [-> Hv]. destruct a; exact Hv.
Qed.

(** C1 (amended): for every directory and every reference date at which each
    stored birthday has its occurrence (its month and day exist in the
    reference year, and in the next year when this year's date is past), the
    query returns, and the contacts it reports are exactly the contacts with
    a set birthday whose unshifted occurrence is between 0 and 7 days from
    the reference date, in directory order. *)
Theorem get_upcoming_birthdays_window `{Libc} (book : AddressBook.t) (now : date) :
  valid now ->
  Forall (fun rb => occurrence_exists now (snd rb)) (with_birthday book) ->
  exists res,
    get_upcoming_birthdays book now = Ok res
    /\ map item_name res
       = map (fun rb => name_value (fst rb))
           (filter (in_window now) (with_birthday book))
    /\ forall rb, in_window now rb = true <-> 0 <= diffDays now (snd rb) <= 7.
Proof.
  intros Hnow Hall. eexists. split.
  - unfold get_upcoming_birthdays. apply (loop_exists now book [] Hnow Hall).
  - split.
    + cbn [app]. rewrite map_map. reflexivity.
    + intros rb. unfold in_window. rewrite andb_true_iff, !Z.leb_le. tauto.
Qed.

Lemma get_upcoming_birthdays_window_witness :
  valid saturday
  /\ Forall (fun rb => occurrence_exists saturday (snd rb)) (with_birthday may_book)
  /\ exists res,
       get_upcoming_birthdays may_book saturday = Ok res
       /\ map item_name res = [Some "Ann"; Some "Bob"; Some "Cid"; Some "Dan"]
       /\ forall rb, in_window saturday rb = true <-> 0 <= diffDays saturday (snd rb) <= 7.
Proof.
  assert (Hnow : valid saturday) by (apply valid_validb; reflexivity).
  assert (Hall : Forall (fun rb => occurrence_exists saturday (snd rb)) (with_birthday may_book)).
  { repeat constructor; apply valid_validb; reflexivity. }
  split; [exact Hnow|]. split; [exact Hall|].
  exact (get_upcoming_birthdays_window may_book saturday Hnow Hall).
Defined.

(** The example directory: the days from the reference date to each
    occurrence, and the weekday of each occurrence. *)
Lemma may_book_days :
  map (fun rb => (diffDays saturday (snd rb),
                  weekday (occurrence saturday (snd rb))))
      (with_birthday may_book)
  = [(0, 5); (7, 5); (1, 6); (3, 1); (8, 6); (364, 5)].
Proof. vm_compute. reflexivity. Qed.

(** C1 (as stated) fails: a contact whose birthday is 2 days away is not
    reported when the occurrence of another contact's birthday cannot be
    built, because the query raises: with a contact born on 29 February and
    a reference year that is not leap, and with a birthday already past at
    a reference date in year 9999. *)
Lemma get_upcoming_birthdays_window_counterexample :
  ((exists r bday, In (r, bday) (with_birthday leap_book)
                   /\ name_value r = Some "Ann"
                   /\ diffDays january bday = 2)
   /\ exists msg,
        get_upcoming_birthdays leap_book january = Raise (ValueError msg))
  /\ ((exists r bday, In (r, bday) (with_birthday late_book)
                      /\ name_value r = Some "Ann"
                      /\ diffDays last_june bday = 2)
      /\ exists msg,
           get_upcoming_birthdays late_book last_june = Raise (ValueError msg)).
Proof.
  split; split.
  - eexists. eexists. split; [left; reflexivity|]. split; reflexivity.
  - exists "day is out of range for month". vm_compute. reflexivity.
  - eexists. eexists. split; [left; reflexivity|]. split; reflexivity.
  - exists "year is out of range". vm_compute. reflexivity.
Qed.

(** C2: every contact the query reports carries the date of its occurrence
    moved 2 days forward when the occurrence is a Saturday, 1 day forward
    when it is a Sunday, and the occurrence itself on any other day. *)
Theorem congratulation_date_shift `{Libc} (book : AddressBook.t) (now : date)
  (res : list item) :
  valid now ->
  get_upcoming_birthdays book now = Ok res ->
  Forall2 (reported now) (filter (in_window now) (with_birthday book)) res.
Proof.
  intros Hnow E. unfold get_upcoming_birthdays in E.
  pose proof (loop_inv _ _ _ _ Hnow E) as Hall.
  rewrite (loop_exists _ _ _ Hnow Hall) in E. cbn [app] in E.
  injection E as <-.
  unfold all_exist in Hall. rewrite Forall_forall in Hall.
  assert (Hsub : forall rb, In rb (filter (in_window now) (with_birthday book)) ->
                            occurrence_exists now (snd rb)).
  { intros rb Hin. apply Hall. apply filter_In in Hin. tauto. }
  induction (filter (in_window now) (with_birthday book)) as [|rb l IH]; cbn [map].
  - constructor.
  - constructor.
    + split; [reflexivity|]. exists (shifted (occurrence now (snd rb))).
      split; [|reflexivity].
      apply shifted_celebration. apply (Hsub rb). left. reflexivity.
    + apply IH. intros rb' Hin. apply Hsub. right. exact Hin.
Qed.

Lemma congratulation_date_shift_witness :
  valid saturday
  /\ get_upcoming_birthdays may_book saturday = Ok may_items
  /\ Forall2 (reported saturday)
       (filter (in_window saturday) (with_birthday may_book)) may_items.
Proof.
  assert (Hnow : valid saturday) by (apply valid_validb; reflexivity).
  assert (E : get_upcoming_birthdays may_book saturday = Ok may_items) by reflexivity.
  split; [exact Hnow|]. split; [exact E|].
  exact (congratulation_date_shift may_book saturday may_items Hnow E).
Defined.

(** C9: there is a directory holding a record born on 29 February and a
    reference date in a year that is not leap for which the query raises the
    error of the date constructor, met while building the occurrence,
    instead of returning a list. *)
Theorem get_upcoming_birthdays_feb29 `{Libc} :
  exists (book : AddressBook.t) (now : date) r bday,
    In (r, bday) (with_birthday book)
    /\ month bday = 2 /\ day bday = 29
    /\ valid now
    /\ _is_leap (year now) = false
    /\ exists msg,
         Date.new (year now) (month bday) (day bday) = Raise (ValueError msg)
         /\ get_upcoming_birthdays book now = Raise (ValueError msg).
Proof.
  exists leap_book, january.
  eexists. eexists. split; [right; left; reflexivity|].
  split; [reflexivity|]. split; [reflexivity|].
  split; [apply valid_validb; reflexivity|].
  split; [reflexivity|].
  exists "day is out of range for month".
  split; vm_compute; reflexivity.
Qed.

End UpcomingClaims.

Module FieldFacts.

Import FieldSpec Re.

Lemma isdigit_decimal c : Str.isdigit c = true <-> decimal_digit c.
Proof.
  unfold decimal_digit.
  destruct c as [[] [] [] [] [] [] [] []]; vm_compute;
    (split; [intros; try discriminate; tauto | intros Hc ]);
    try reflexivity;
    repeat (destruct Hc as [Hc|Hc]; [discriminate|]); contradiction.
Qed.

Lemma run_rep_succ n a x :
  run (Rep (S n) a) x = flat_map (run (Rep n a)) (run a x).
Proof. reflexivity. Qed.

Lemma run_cls p x :
  run (Cls p) x
  = match rest x with
    | String c s' => if p c then [mkst (S (pos x)) s' (caps x)] else []
    | EmptyString => []
    end.
Proof. reflexivity. Qed.

Lemma run_rep_class p n x :
  run (Rep n (Cls p)) x
  = match skip_class p n (rest x) with
    | Some s' => [mkst (n + pos x) s' (caps x)]
    | None => []
    end.
Proof.
  revert x. induction n as [|n IH]; intros x.
  - destruct x; reflexivity.
  - rewrite run_rep_succ, run_cls. cbn [skip_class].
    destruct (rest x) as [|c s']; [reflexivity|].
    destruct (p c); [|reflexivity].
    cbn [flat_map]. rewrite IH, app_nil_r. cbn [rest pos caps].
    rewrite Nat.add_succ_r. reflexivity.
Qed.

Lemma skip_class_all p n s :
  skip_class p n s = Some EmptyString
  <-> String.length s = n /\ Forall (fun c => p c = true) (list_ascii_of_string s).
Proof.
  revert s. induction n as [|n IH]; intros s; cbn [skip_class].
  - split.
    + intros [= ->]. split; [reflexivity | constructor].
    + intros [Hlen _]. destruct s; [reflexivity | discriminate].
  - destruct s as [|c s']; cbn [String.length list_ascii_of_string].
    + split; [discriminate | intros [? _]; discriminate].
    + destruct (p c) eqn:Ec.
      * rewrite IH. split.
        -- intros [Hl Hf]. split; [now f_equal | now constructor].
        -- intros [Hl Hf]. inversion Hf; subst. split; [congruence | assumption].
      * split; [discriminate|]. intros [_ Hf]. inversion Hf; congruence.
Qed.

(** [MATCH_PATTERN.fullmatch(v)] succeeds exactly on ten digits. *)
Lemma fullmatch_ten s :
  (exists m, fullmatch Phone.MATCH_PATTERN s = Some m)
  <-> skip_class Str.isdigit 10 s = Some EmptyString.
Proof.
  unfold fullmatch, Phone.MATCH_PATTERN.
  change (run (Cat Bol (Cat (Rep 10 (Cls Str.isdigit)) Eol)) (start s))
    with (flat_map (run Eol) (run (Rep 10 (Cls Str.isdigit)) (start s)) ++ []).
  rewrite app_nil_r, run_rep_class. cbn [rest start].
  destruct (skip_class Str.isdigit 10 s) as [s'|].
  - cbn [flat_map run rest]. destruct s' as [|c [|c' s'']].
    + cbn. split; [reflexivity | eauto].
    + destruct (Ascii.eqb c newline); cbn;
        (split; [intros [m Hm]; discriminate | intros [=]]).
    + cbn. split; [intros [m Hm]; discriminate | intros [=]].
  - cbn. split; [intros [m Hm]; discriminate | discriminate].
Qed.

Lemma ten_digits_skip s :
  ten_digits s <-> skip_class Str.isdigit 10 s = Some EmptyString.
Proof.
  rewrite skip_class_all. unfold ten_digits.
  split; intros [Hl Hf]; (split; [exact Hl|]);
    eapply Forall_impl; try exact Hf; intros c; apply isdigit_decimal.
Qed.

End FieldFacts.

Module FieldClaims.

Import FieldSpec FieldFacts.


(** C7: when no stored phone has the old value, [edit_phone] answers "not
    found" ([False]) and the record, its phone list included, is unchanged. *)
Theorem edit_phone_absent (r : ContactRecord.t) (old_value new_value : option string) :
  (forall p, In p (ContactRecord.phones r) -> Field.value p <> old_value) ->
  ContactRecord.edit_phone r old_value new_value = Ok (false, r).
Proof.
  intros Habs. unfold ContactRecord.edit_phone, ContactRecord.find_phone.
  destruct (find (ContactRecord.has_value old_value) (ContactRecord.phones r))
    as [p|] eqn:E; [|reflexivity].
  apply find_some in E as [Hin Hv]. exfalso. apply (Habs p Hin).
  unfold ContactRecord.has_value, ContactRecord.value_eqb in Hv.
  destruct (Field.value p) as [x|], old_value as [y|]; try discriminate.
  - apply String.eqb_eq in Hv. congruence.
  - reflexivity.
Qed.

Lemma edit_phone_absent_witness :
  (forall p, In p (ContactRecord.phones two_phones) ->
             Field.value p <> Some "5555555555")
  /\ ContactRecord.edit_phone two_phones (Some "5555555555") (Some "12")
     = Ok (false, two_phones).
Proof.
  assert (Habs : forall p, In p (ContactRecord.phones two_phones) ->
                           Field.value p <> Some "5555555555").
  { intros p [<-|[<-|[]]]; discriminate. }
  split; [exact Habs|].
  exact (edit_phone_absent two_phones (Some "5555555555") (Some "12") Habs).
Defined.

End FieldClaims.

Module StrFacts.

Import Str StrSpec.

Lemma isspace_lower_char c : isspace (lower_char c) = isspace c.
Proof. destruct c as [[] [] [] [] [] [] [] []]; reflexivity. Qed.

Lemma lower_char_idem c : lower_char (lower_char c) = lower_char c.
Proof. destruct c as [[] [] [] [] [] [] [] []]; reflexivity. Qed.

Lemma lower_idem s : lower (lower s) = lower s.
Proof.
  induction s as [|c s IH]; [reflexivity|].
  cbn [lower]. now rewrite lower_char_idem, IH.
Qed.

Lemma lstrip_lower s : lstrip (lower s) = lower (lstrip s).
Proof.
  induction s as [|c s IH]; [reflexivity|].
  cbn [lower lstrip]. rewrite isspace_lower_char.
  destruct (isspace c); [exact IH | reflexivity].
Qed.

Lemma lower_empty s : lower s = EmptyString <-> s = EmptyString.
Proof. destruct s; cbn; split; congruence. Qed.

Lemma rstrip_lower s : rstrip (lower s) = lower (rstrip s).
Proof.
  induction s as [|c s IH]; [reflexivity|].
  cbn [lower rstrip]. rewrite IH, isspace_lower_char.
  destruct (rstrip s) as [|c' r]; cbn [lower].
  - destruct (isspace c); reflexivity.
  - reflexivity.
Qed.

Lemma strip_lower s : strip (lower s) = lower (strip s).
Proof. unfold strip. now rewrite lstrip_lower, rstrip_lower. Qed.

Lemma rstrip_idem s : rstrip (rstrip s) = rstrip s.
Proof.
  induction s as [|c s IH]; [reflexivity|].
  cbn [rstrip]. destruct (rstrip s) as [|c' r] eqn:E.
  - destruct (isspace c) eqn:Ec; [reflexivity|].
    cbn [rstrip]. now rewrite Ec.
  - cbn [rstrip]. cbn [rstrip] in IH. rewrite IH. reflexivity.
Qed.

Lemma lstrip_clean s : clean_head (lstrip s).
Proof.
  induction s as [|c s IH]; [exact I|].
  cbn [lstrip]. destruct (isspace c) eqn:E; [exact IH | exact E].
Qed.

Lemma lstrip_fixed s : clean_head s -> lstrip s = s.
Proof.
  destruct s as [|c s]; [reflexivity|]. cbn. now intros ->.
Qed.

Lemma rstrip_clean s : clean_head s -> clean_head (rstrip s).
Proof.
  destruct s as [|c s]; [intros _; exact I|].
  cbn [clean_head rstrip]. intros E. rewrite E.
  destruct (rstrip s); exact E.
Qed.

Lemma strip_idem s : strip (strip s) = strip s.
Proof.
  unfold strip.
  rewrite (lstrip_fixed (rstrip (lstrip s))).
  - apply rstrip_idem.
  - apply rstrip_clean, lstrip_clean.
Qed.

End StrFacts.

Module DictFacts.

Import Dict.

Section WithValue.

Context {V : Type}.

Implicit Types (d : Dict.t V) (k : string) (v : V).

Lemma keys_setitem_in k v d :
  In k (keys d) -> keys (setitem k v d) = keys d.
Proof.
  induction d as [|[k' v'] d IH]; [intros []|].
  cbn [setitem keys map fst]. destruct (String.eqb_spec k' k) as [->|Hne].
  - reflexivity.
  - intros [E|Hin]; [congruence|]. cbn [map fst]. f_equal. apply IH, Hin.
Qed.

Lemma keys_setitem_new k v d :
  ~ In k (keys d) -> keys (setitem k v d) = keys d ++ [k].
Proof.
  induction d as [|[k' v'] d IH]; [reflexivity|].
  cbn [setitem keys map fst]. intros Hn.
  destruct (String.eqb_spec k' k) as [->|Hne].
  - exfalso. apply Hn. now left.
  - cbn [map fst app]. f_equal. apply IH. intros Hin. apply Hn. now right.
Qed.

Lemma keys_setitem k v d :
  keys (setitem k v d) = if contains k d then keys d else keys d ++ [k].
Proof.
  induction d as [|[k' v'] d IH]; [reflexivity|].
  unfold contains in *. cbn [setitem keys map fst get].
  destruct (String.eqb k' k); [reflexivity|].
  cbn [map fst]. fold (keys (setitem k v d)). rewrite IH.
  destruct (get k d); reflexivity.
Qed.

Lemma contains_In k d : contains k d = true <-> In k (keys d).
Proof.
  unfold contains. induction d as [|[k' v'] d IH]; cbn [get keys map fst].
  - split; [discriminate | intros []].
  - destruct (String.eqb_spec k' k) as [->|Hne].
    + split; [now left | reflexivity].
    + rewrite IH. split; [now right | intros [E|Hin]; [congruence | exact Hin]].
Qed.

Lemma get_setitem k v d : get k (setitem k v d) = Some v.
Proof.
  induction d as [|[k' v'] d IH]; cbn [setitem get].
  - now rewrite String.eqb_refl.
  - destruct (String.eqb k' k) eqn:E; cbn [get]; rewrite E; [reflexivity | exact IH].
Qed.

Lemma get_setitem_other k k' v d :
  k' <> k -> get k' (setitem k v d) = get k' d.
Proof.
  intros Hne. induction d as [|[k0 v0] d IH]; cbn [setitem get].
  - destruct (String.eqb_spec k k'); [congruence | reflexivity].
  - destruct (String.eqb_spec k0 k) as [->|Hk]; cbn [get].
    + destruct (String.eqb_spec k k'); [congruence | reflexivity].
    + destruct (String.eqb k0 k'); [reflexivity | exact IH].
Qed.

Lemma NoDup_setitem k v d : NoDup (keys d) -> NoDup (keys (setitem k v d)).
Proof.
  intros Hnd. rewrite keys_setitem.
  destruct (contains k d) eqn:E; [exact Hnd|].
  assert (Hn : ~ In k (keys d)).
  { rewrite <- contains_In, E. discriminate. }
  apply NoDup_app; [exact Hnd | repeat constructor; intros [] | ].
  intros x Hx [<-|[]]. contradiction.
Qed.



(** With distinct keys, a stored entry is the one [get] returns, and
    [delitem] removes that entry and no other. *)
Lemma get_In k v d : NoDup (keys d) -> In (k, v) d -> get k d = Some v.
Proof.
  induction d as [|[k' v'] d IH]; [intros _ []|].
  cbn [keys map fst get]. intros Hnd Hin. inversion Hnd as [|? ? Hn Hnd']; subst.
  destruct Hin as [[= -> ->]|Hin].
  - now rewrite String.eqb_refl.
  - destruct (String.eqb_spec k' k) as [->|Hne].
    + exfalso. apply Hn. change k with (fst (k, v)). apply in_map, Hin.
    + apply IH; assumption.
Qed.


End WithValue.

End DictFacts.

Module DirectoryFacts.

Import AddressBook DirectorySpec.

Lemma normalize_idem n : normalize (normalize n) = normalize n.
Proof.
  unfold normalize.
  now rewrite StrFacts.strip_lower, StrFacts.strip_idem, StrFacts.lower_idem.
Qed.

Lemma add_record_named book r n :
  BookSpec.name_value r = Some n ->
  add_record book r = Ok (Dict.setitem (normalize n) r book).
Proof. unfold add_record, BookSpec.name_value. now intros ->. Qed.

Lemma keys_normalized_setitem book k r :
  normalize k = k -> keys_normalized book ->
  keys_normalized (Dict.setitem k r book).
Proof.
  unfold keys_normalized. intros Hk Hall. rewrite DictFacts.keys_setitem.
  destruct (Dict.contains k book); [exact Hall|].
  apply Forall_app. split; [exact Hall | now constructor].
Qed.


Lemma entries_under_one book k :
  distinct_keys book -> In k (Dict.keys book) ->
  List.length (entries_under k book) = 1%nat.
Proof.
  unfold distinct_keys, entries_under.
  induction book as [|[k' r'] book IH]; [intros _ []|].
  cbn [Dict.keys map fst filter]. intros Hnd Hin.
  inversion Hnd as [|? ? Hn Hnd']; subst.
  destruct (String.eqb_spec k' k) as [->|Hne].
  - cbn [List.length]. f_equal.
    assert (E : filter (fun kr => String.eqb (fst kr) k) book = []).
    { clear - Hn. induction book as [|[k0 r0] book IH]; [reflexivity|].
      cbn [filter fst]. destruct (String.eqb_spec k0 k) as [->|Hk].
      - exfalso. apply Hn. now left.
      - apply IH. intros Hin. apply Hn. now right. }
    now rewrite E.
  - destruct Hin as [E|Hin]; [congruence|]. apply IH; assumption.
Qed.

End DirectoryFacts.

Module DirectoryClaims.

Import AddressBook DirectorySpec DirectoryFacts.
Import BookSpec.

(** C6: adding two records whose names have the same normal form always
    succeeds and the second replaces the first: the directory keeps its keys
    (so its size), holds exactly one record under the common key, and finds
    the second record under either name. *)
Theorem add_record_overwrites (book : AddressBook.t) (r1 r2 : ContactRecord.t)
  (n1 n2 : string) :
  distinct_keys book ->
  name_value r1 = Some n1 -> name_value r2 = Some n2 ->
  normalize n1 = normalize n2 ->
  exists b1 b2,
    add_record book r1 = Ok b1 /\ add_record b1 r2 = Ok b2
    /\ Dict.keys b2 = Dict.keys b1
    /\ List.length b2 = List.length b1
    /\ entries_under (normalize n1) b2 = [(normalize n1, r2)]
    /\ find b2 n1 = Some r2 /\ find b2 n2 = Some r2.
Proof.
  intros Hnd H1 H2 Hn.
  exists (Dict.setitem (normalize n1) r1 book).
  exists (Dict.setitem (normalize n1) r2 (Dict.setitem (normalize n1) r1 book)).
  assert (Hin : In (normalize n1) (Dict.keys (Dict.setitem (normalize n1) r1 book))).
  { apply DictFacts.contains_In. unfold Dict.contains.
    now rewrite DictFacts.get_setitem. }
  assert (Hk : Dict.keys (Dict.setitem (normalize n1) r2
                            (Dict.setitem (normalize n1) r1 book))
               = Dict.keys (Dict.setitem (normalize n1) r1 book)).
  { apply DictFacts.keys_setitem_in, Hin. }
  split; [apply add_record_named, H1|].
  split; [rewrite Hn; apply add_record_named, H2|].
  split; [exact Hk|].
  split.
  { unfold Dict.keys in Hk. apply (f_equal (@List.length _)) in Hk.
    now rewrite !length_map in Hk. }
  split.
  { set (b2 := Dict.setitem (normalize n1) r2 _) in *.
    assert (Hnd2 : distinct_keys b2).
    { apply DictFacts.NoDup_setitem, DictFacts.NoDup_setitem, Hnd. }
    assert (Hin2 : In (normalize n1) (Dict.keys b2)) by (rewrite Hk; exact Hin).
    pose proof (entries_under_one b2 _ Hnd2 Hin2) as Hlen.
    destruct (entries_under (normalize n1) b2) as [|[k r] [|? ?]] eqn:E;
      try discriminate.
    assert (Hmem : In (k, r) (entries_under (normalize n1) b2))
      by (rewrite E; now left).
    unfold entries_under in Hmem. apply filter_In in Hmem as [Hmem Hkey].
    cbn in Hkey. apply String.eqb_eq in Hkey. subst k.
    pose proof (DictFacts.get_In _ _ _ Hnd2 Hmem) as Hget.
    unfold b2 in Hget. rewrite DictFacts.get_setitem in Hget. congruence. }
  unfold find. rewrite <- Hn. split; apply DictFacts.get_setitem.
Qed.

Lemma add_record_overwrites_witness :
  distinct_keys empty
  /\ name_value (named "Alice") = Some "Alice"
  /\ name_value (named "  alice ") = Some "  alice "
  /\ normalize "Alice" = normalize "  alice "
  /\ exists b1 b2,
       add_record empty (named "Alice") = Ok b1
       /\ add_record b1 (named "  alice ") = Ok b2
       /\ Dict.keys b2 = Dict.keys b1
       /\ List.length b2 = List.length b1
       /\ entries_under (normalize "Alice") b2
          = [(normalize "Alice", named "  alice ")]
       /\ find b2 "Alice" = Some (named "  alice ")
       /\ find b2 "  alice " = Some (named "  alice ").
Proof.
  assert (Hnd : distinct_keys empty) by constructor.
  split; [exact Hnd|]. split; [reflexivity|]. split; [reflexivity|].
  split; [reflexivity|].
  exact (add_record_overwrites empty (named "Alice") (named "  alice ")
           "Alice" "  alice " Hnd eq_refl eq_refl eq_refl).
Defined.

(** The example of the specification: "Alice" then "  alice " leaves one
    entry. *)
Lemma alice_twice :
  (b1 <- add_record empty (named "Alice") ;; add_record b1 (named "  alice "))
  = Ok [("alice", named "  alice ")].
Proof. reflexivity. Qed.

(** C8 (amended): a record is constructed from any name, the empty text and
    an absent name included; the name is stored as given and is not
    validated, and a record with an empty name can be added to a directory
    and found there. *)
Theorem record_name_unchecked (n : option string) (book : AddressBook.t) :
  ContactRecord.__init__ n = Ok (ContactRecord.make (Field.make n) [] None)
  /\ exists book',
       add_record book (named "") = Ok book'
       /\ find book' "" = Some (named "")
       /\ name_value (named "") = Some "".
Proof.
  split; [reflexivity|].
  exists (Dict.setitem (normalize "") (named "") book).
  split; [reflexivity|]. split; [|reflexivity].
  unfold find. apply DictFacts.get_setitem.
Qed.

(** C8 (as stated) fails: a record with an empty name, and one with an
    absent name, are constructed without error. *)
Lemma record_name_counterexample :
  ContactRecord.__init__ (Some "") = Ok (named "")
  /\ ContactRecord.__init__ None
     = Ok (ContactRecord.make (Field.make None) [] None)
  /\ ~ exists e, ContactRecord.__init__ (Some "") = Raise e.
Proof.
  split; [reflexivity|]. split; [reflexivity|].
  intros [e He]. discriminate.
Qed.


End DirectoryClaims.

Module ReFacts.

Import Re ReSpec.

Lemma append_nil_r s : (s ++ "")%string = s.
Proof. induction s as [|c s IH]; cbn; [reflexivity | now rewrite IH]. Qed.

Lemma append_assoc s1 s2 s3 :
  ((s1 ++ s2) ++ s3)%string = (s1 ++ (s2 ++ s3))%string.
Proof. induction s1 as [|c s1 IH]; cbn; [reflexivity | now rewrite IH]. Qed.

Lemma length_append s1 s2 :
  String.length (s1 ++ s2) = (String.length s1 + String.length s2)%nat.
Proof. induction s1 as [|c s1 IH]; cbn; [reflexivity | now rewrite IH]. Qed.

Lemma prefix_append w s : prefix (String.length w) (w ++ s) = w.
Proof. induction w as [|c w IH]; cbn; [now destruct s | now rewrite IH]. Qed.

Lemma append_cancel_l w s1 s2 : (w ++ s1)%string = (w ++ s2)%string -> s1 = s2.
Proof. induction w as [|c w IH]; cbn; [auto | intros [= E]; auto]. Qed.

Lemma st_eq x y :
  rest x = rest y -> pos x = pos y -> caps x = caps y -> x = y.
Proof. destruct x, y. cbn. now intros -> -> ->. Qed.

Lemma step_refl x : step x x "" [].
Proof.
  unfold step. cbn. split; [reflexivity|]. split; [lia|]. now rewrite app_nil_r.
Qed.

Lemma step_nil_inv x y : step x y "" [] -> y = x.
Proof.
  intros (Hr & Hp & Hc). cbn in *. rewrite app_nil_r in Hc.
  apply st_eq; [congruence | lia | congruence].
Qed.

Lemma step_trans x y z w1 g1 w2 g2 :
  step x y w1 g1 -> step y z w2 g2 -> step x z (w1 ++ w2) (g1 ++ g2).
Proof.
  intros (Hr1 & Hp1 & Hc1) (Hr2 & Hp2 & Hc2). unfold step.
  rewrite append_assoc, <- Hr2, Hr1, length_append, Hc2, Hc1, app_assoc.
  repeat split; lia.
Qed.

(** Splitting a step at an intermediate text. *)
Lemma step_split x z w1 w2 g1 g2 :
  step x z (w1 ++ w2) (g1 ++ g2) ->
  let y := mkst (pos x + String.length w1) (w2 ++ rest z) (caps x ++ g1) in
  step x y w1 g1 /\ step y z w2 g2.
Proof.
  intros (Hr & Hp & Hc). cbn zeta. unfold step. cbn [rest pos caps].
  rewrite append_assoc in Hr. rewrite length_append in Hp.
  rewrite app_assoc in Hc.
  repeat split; try assumption; lia.
Qed.

Lemma consumed_step x y w g : step x y w g -> consumed x y = w.
Proof.
  intros (Hr & Hp & _). unfold consumed. rewrite Hr, Hp.
  replace (pos x + String.length w - pos x)%nat with (String.length w) by lia.
  apply prefix_append.
Qed.

(** The matcher reaches exactly the states the pattern denotes. *)
Theorem run_denote r :
  forall x y,
    In y (run r x)
    <-> exists w g, step x y w g /\ denote r (pos x) w (rest y) g.
Proof.
  induction r as [|c|a IHa b IHb|a IHa b IHb|n a IHa| | |name a IHa]; intros x y.
  - (* Eps *)
    cbn [run denote]. split.
    + intros [<-|[]]. exists "", []. split; [apply step_refl | tauto].
    + intros (w & g & Hs & -> & ->). left. symmetry. apply step_nil_inv, Hs.
  - (* Cls *)
    cbn [run denote]. split.
    + destruct (rest x) as [|ch s'] eqn:Ex; [intros []|].
      destruct (c ch) eqn:Ec; [|intros []].
      intros [<-|[]]. exists (String ch ""), []. split.
      * unfold step. cbn. rewrite Ex, app_nil_r. repeat split; lia.
      * exists ch. tauto.
    + intros (w & g & (Hr & Hp & Hc) & ch & -> & Ec & ->).
      cbn in Hr, Hp. rewrite Hr, Ec. left.
      apply st_eq; cbn; [reflexivity | lia | ].
      rewrite Hc. now rewrite app_nil_r.
  - (* Cat *)
    cbn [run denote]. rewrite in_flat_map. split.
    + intros (z & Hz & Hy). apply IHa in Hz as (w1 & g1 & Hs1 & Hd1).
      apply IHb in Hy as (w2 & g2 & Hs2 & Hd2).
      exists (w1 ++ w2)%string, (g1 ++ g2). split; [eapply step_trans; eassumption|].
      exists w1, w2, g1, g2. split; [reflexivity|]. split; [reflexivity|].
      destruct Hs1 as (_ & Hp1 & _), Hs2 as (Hr2 & _ & _).
      rewrite <- Hr2, <- Hp1. tauto.
    + intros (w & g & Hs & w1 & w2 & g1 & g2 & -> & -> & Hd1 & Hd2).
      apply step_split in Hs. cbn zeta in Hs. destruct Hs as [Hs1 Hs2].
      eexists. split.
      * apply IHa. exists w1, g1. split; [exact Hs1 | exact Hd1].
      * apply IHb. exists w2, g2. split; [exact Hs2 | exact Hd2].
  - (* Or *)
    cbn [run denote]. rewrite in_app_iff, IHa, IHb. split.
    + intros [(w & g & Hs & Hd)|(w & g & Hs & Hd)]; exists w, g; tauto.
    + intros (w & g & Hs & [Hd|Hd]); [left | right]; exists w, g; tauto.
  - (* Rep *)
    revert x y. induction n as [|n IHn]; intros x y.
    + cbn [run denote]. split.
      * intros [<-|[]]. exists "", []. split; [apply step_refl | tauto].
      * intros (w & g & Hs & -> & ->). left. symmetry. apply step_nil_inv, Hs.
    + change (run (Rep (S n) a) x) with (flat_map (run (Rep n a)) (run a x)).
      rewrite in_flat_map. split.
      * intros (z & Hz & Hy). apply IHa in Hz as (w1 & g1 & Hs1 & Hd1).
        apply IHn in Hy as (w2 & g2 & Hs2 & Hd2).
        exists (w1 ++ w2)%string, (g1 ++ g2).
        split; [eapply step_trans; eassumption|].
        cbn [denote]. exists w1, w2, g1, g2.
        split; [reflexivity|]. split; [reflexivity|].
        destruct Hs1 as (_ & Hp1 & _), Hs2 as (Hr2 & _ & _).
        rewrite <- Hr2, <- Hp1. split; [exact Hd1 | exact Hd2].
      * intros (w & g & Hs & Hd). cbn [denote] in Hd.
        destruct Hd as (w1 & w2 & g1 & g2 & -> & -> & Hd1 & Hd2).
        apply step_split in Hs. cbn zeta in Hs. destruct Hs as [Hs1 Hs2].
        eexists. split.
        -- apply IHa. exists w1, g1. split; [exact Hs1 | exact Hd1].
        -- apply IHn. exists w2, g2. split; [exact Hs2 | exact Hd2].
  - (* Bol *)
    cbn [run denote]. split.
    + destruct (pos x) eqn:Ep; [|intros []].
      intros [<-|[]]. exists "", []. split; [apply step_refl | tauto].
    + intros (w & g & Hs & -> & -> & ->). left. symmetry. apply step_nil_inv, Hs.
  - (* Eol *)
    cbn [run denote]. split.
    + destruct (rest x) as [|ch [|ch' s']] eqn:Ex.
      * intros [<-|[]]. exists "", []. split; [apply step_refl | tauto].
      * destruct (Ascii.eqb_spec ch newline) as [->|Hn]; [|intros []].
        intros [<-|[]]. exists "", []. split; [apply step_refl | tauto].
      * intros [].
    + intros (w & g & Hs & -> & -> & Hafter).
      apply step_nil_inv in Hs. subst y.
      destruct Hafter as [->| ->]; [now left|].
      rewrite Ascii.eqb_refl. now left.
  - (* Grp *)
    cbn [run denote]. rewrite in_map_iff. split.
    + intros (z & <- & Hz). apply IHa in Hz as (w & g & Hs & Hd).
      exists w, (g ++ [(name, w)]). cbn [rest pos caps]. split.
      * destruct Hs as (Hr & Hp & Hc). unfold step. cbn [rest pos caps].
        rewrite (consumed_step x z w g) by (unfold step; tauto).
        rewrite Hc, app_assoc. tauto.
      * exists g. tauto.
    + intros (w & g & Hs & g' & Hd & ->).
      exists (mkst (pos y) (rest y) (caps x ++ g')).
      assert (Hs' : step x (mkst (pos y) (rest y) (caps x ++ g')) w g').
      { destruct Hs as (Hr & Hp & Hc). unfold step. cbn [rest pos caps]. tauto. }
      split.
      * cbn [rest pos caps]. rewrite (consumed_step _ _ _ _ Hs').
        destruct Hs as (Hr & Hp & Hc).
        apply st_eq; cbn [rest pos caps]; [reflexivity | reflexivity |].
        rewrite Hc, app_assoc. reflexivity.
      * apply IHa. exists w, g'. split; [exact Hs' | exact Hd].
Qed.

End ReFacts.

Module CharFacts.

Import Str FieldSpec.

Lemma chr_ord c : chr (ord c) = c.
Proof. unfold chr, ord. rewrite N2Z.id. apply ascii_N_embedding. Qed.

Lemma ord_inj a b : ord a = ord b -> a = b.
Proof. intros E. rewrite <- (chr_ord a), <- (chr_ord b). now rewrite E. Qed.

Lemma ord_range c : 0 <= ord c < 256.
Proof. destruct c as [[] [] [] [] [] [] [] []]; vm_compute; split; congruence. Qed.

(** Code points of the literal characters, computed. *)
Ltac ord_lit :=
  repeat match goal with
    | |- context [ord (Ascii ?a ?b ?c ?d ?e ?f ?g ?h)] =>
        let v := eval vm_compute in (ord (Ascii a b c d e f g h)) in
        change (ord (Ascii a b c d e f g h)) with v
    | H : context [ord (Ascii ?a ?b ?c ?d ?e ?f ?g ?h)] |- _ =>
        let v := eval vm_compute in (ord (Ascii a b c d e f g h)) in
        change (ord (Ascii a b c d e f g h)) with v in H
    end.

Lemma in_range_ord lo hi c :
  in_range lo hi c = true <-> ord lo <= ord c <= ord hi.
Proof. unfold in_range. rewrite andb_true_iff, !Z.leb_le. tauto. Qed.

Lemma is_char_eq a c : is_char a c = true <-> c = a.
Proof.
  unfold is_char. rewrite Z.eqb_eq. split; [apply ord_inj | now intros ->].
Qed.

Lemma isdigit_ord c : isdigit c = true <-> 48 <= ord c <= 57.
Proof. unfold isdigit. rewrite in_range_ord. ord_lit. tauto. Qed.

Lemma decimal_digit_ord c : decimal_digit c <-> 48 <= ord c <= 57.
Proof. rewrite <- isdigit_ord. symmetry. apply FieldFacts.isdigit_decimal. Qed.

Lemma isspace_false c : 33 <= ord c <= 132 -> isspace c = false.
Proof.
  intros Hc. unfold isspace.
  repeat match goal with
         | |- context [?a <=? ?b] => destruct (Z.leb_spec a b)
         | |- context [?a =? ?b] => destruct (Z.eqb_spec a b)
         end; cbn; try reflexivity; lia.
Qed.

Lemma int_1 a : 48 <= ord a <= 57 -> int (String a "") = ord a - 48.
Proof.
  intros Ha. unfold int, strip. cbn [lstrip].
  rewrite (isspace_false a) by lia. cbn [rstrip].
  rewrite (isspace_false a) by lia. cbn [digits_value]. lia.
Qed.

Lemma int_2 a b :
  48 <= ord a <= 57 -> 48 <= ord b <= 57 ->
  int (String a (String b "")) = 10 * (ord a - 48) + (ord b - 48).
Proof.
  intros Ha Hb. unfold int, strip. cbn [lstrip].
  rewrite (isspace_false a) by lia. cbn [rstrip].
  rewrite (isspace_false b) by lia. cbn [digits_value]. lia.
Qed.

Lemma int_space b :
  48 <= ord b <= 57 -> int (String " " (String b "")) = ord b - 48.
Proof.
  intros Hb. unfold int, strip. cbn [lstrip].
  change (isspace " ") with true. cbn iota.
  rewrite (isspace_false b) by lia. cbn [rstrip].
  rewrite (isspace_false b) by lia. cbn [digits_value]. lia.
Qed.

Lemma int_4 a b c d :
  48 <= ord a <= 57 -> 48 <= ord b <= 57 ->
  48 <= ord c <= 57 -> 48 <= ord d <= 57 ->
  int (String a (String b (String c (String d ""))))
  = 1000 * (ord a - 48) + 100 * (ord b - 48) + 10 * (ord c - 48) + (ord d - 48).
Proof.
  intros Ha Hb Hc Hd. unfold int, strip. cbn [lstrip].
  rewrite (isspace_false a) by lia. cbn [rstrip].
  rewrite (isspace_false d) by lia. cbn [digits_value]. lia.
Qed.

End CharFacts.

Module BirthdayFacts.

Import FieldSpec BirthdaySpec CharFacts Re ReSpec ReFacts.
Import Str.

Lemma digits_1 t :
  digits 1 t <-> exists a, t = String a "" /\ 48 <= ord a <= 57.
Proof.
  unfold digits. split.
  - intros [Hl Hf]. destruct t as [|a [|b t]]; try discriminate.
    exists a. split; [reflexivity|]. inversion Hf; subst.
    now apply decimal_digit_ord.
  - intros (a & -> & Ha). split; [reflexivity|].
    repeat (apply Forall_cons; [now apply decimal_digit_ord|]). apply Forall_nil.
Qed.

Lemma digits_2 t :
  digits 2 t
  <-> exists a b, t = String a (String b "")
                  /\ 48 <= ord a <= 57 /\ 48 <= ord b <= 57.
Proof.
  unfold digits. split.
  - intros [Hl Hf]. destruct t as [|a [|b [|c t]]]; try discriminate.
    exists a, b. split; [reflexivity|].
    inversion Hf as [|? ? Ha Hf']; subst. inversion Hf' as [|? ? Hb _]; subst.
    split; now apply decimal_digit_ord.
  - intros (a & b & -> & Ha & Hb). split; [reflexivity|].
    repeat (apply Forall_cons; [now apply decimal_digit_ord|]). apply Forall_nil.
Qed.

Lemma digits_4 t :
  digits 4 t
  <-> exists a b c d,
        t = String a (String b (String c (String d "")))
        /\ 48 <= ord a <= 57 /\ 48 <= ord b <= 57
        /\ 48 <= ord c <= 57 /\ 48 <= ord d <= 57.
Proof.
  unfold digits. split.
  - intros [Hl Hf]. destruct t as [|a [|b [|c [|d [|e t]]]]]; try discriminate.
    exists a, b, c, d. split; [reflexivity|].
    inversion Hf as [|? ? Ha Hf1]; subst. inversion Hf1 as [|? ? Hb Hf2]; subst.
    inversion Hf2 as [|? ? Hc Hf3]; subst. inversion Hf3 as [|? ? Hd _]; subst.
    repeat split; now apply decimal_digit_ord.
  - intros (a & b & c & d & -> & Ha & Hb & Hc & Hd). split; [reflexivity|].
    repeat (apply Forall_cons; [now apply decimal_digit_ord|]). apply Forall_nil.
Qed.

Lemma day_text_cases t :
  day_text t
  <-> (exists a, t = String a "" /\ 48 <= ord a <= 57)
      \/ (exists a b, t = String a (String b "")
                      /\ (48 <= ord a <= 57 \/ ord a = 32)
                      /\ 48 <= ord b <= 57).
Proof.
  unfold day_text. rewrite digits_1, digits_2. split.
  - intros [H|[(a & b & -> & Ha & Hb)|(c & -> & Hc)]].
    + now left.
    + right. exists a, b. tauto.
    + right. exists " "%char, c. apply decimal_digit_ord in Hc.
      split; [reflexivity|]. split; [right; reflexivity | exact Hc].
  - intros [H|(a & b & -> & [Ha|Ha] & Hb)].
    + now left.
    + right. left. exists a, b. tauto.
    + right. right. exists b. split; [|now apply decimal_digit_ord].
      f_equal. apply ord_inj. exact Ha.
Qed.

(** Two characters of given classes, as a pattern. *)
Lemma denote_cls2 c1 c2 p w after g :
  denote (Cat (Cls c1) (Cls c2)) p w after g
  <-> exists a b, w = String a (String b "")
                  /\ c1 a = true /\ c2 b = true /\ g = [].
Proof.
  cbn [denote]. split.
  - intros (w1 & w2 & g1 & g2 & -> & -> & (a & -> & Ha & ->) & (b & -> & Hb & ->)).
    exists a, b. tauto.
  - intros (a & b & -> & Ha & Hb & ->).
    exists (String a ""), (String b ""), [], [].
    split; [reflexivity|]. split; [reflexivity|].
    split; [exists a | exists b]; tauto.
Qed.

Lemma denote_cls c p w after g :
  denote (Cls c) p w after g <-> exists a, w = String a "" /\ c a = true /\ g = [].
Proof. reflexivity. Qed.

Lemma denote_or a b p w after g :
  denote (Or a b) p w after g <-> denote a p w after g \/ denote b p w after g.
Proof. reflexivity. Qed.

Ltac classes :=
  repeat match goal with
    | H : in_range _ _ _ = true |- _ => apply in_range_ord in H
    | H : isdigit _ = true |- _ => apply isdigit_ord in H
    | H : is_char _ _ = true |- _ => apply is_char_eq in H; subst
    end;
  ord_lit.

Lemma denote_re_d p w after g :
  denote Time.re_d p w after g
  <-> g = [] /\ day_text w /\ 1 <= int w <= 31.
Proof.
  unfold Time.re_d.
  rewrite !denote_or, !denote_cls2, denote_cls, day_text_cases. split.
  - intros [(a & b & -> & Ha & Hb & ->)
           |[(a & b & -> & Ha & Hb & ->)
            |[(a & b & -> & Ha & Hb & ->)
             |[(a & -> & Ha & ->)
              |(a & b & -> & Ha & Hb & ->)]]]]; classes.
    + split; [reflexivity|]. rewrite int_2 by (ord_lit; lia). ord_lit.
      split; [|lia]. right. exists "3"%char, b. ord_lit.
      split; [reflexivity|]. lia.
    + split; [reflexivity|]. rewrite int_2 by lia.
      split; [|lia]. right. exists a, b. split; [reflexivity|]. lia.
    + split; [reflexivity|]. rewrite int_2 by (ord_lit; lia). ord_lit.
      split; [|lia]. right. exists "0"%char, b. ord_lit.
      split; [reflexivity|]. lia.
    + split; [reflexivity|]. rewrite int_1 by lia.
      split; [|lia]. left. exists a. split; [reflexivity|]. lia.
    + split; [reflexivity|]. rewrite int_space by lia.
      split; [|lia]. right. exists " "%char, b. ord_lit.
      split; [reflexivity|]. lia.
  - intros (-> & [(a & -> & Ha)|(a & b & -> & [Ha|Ha] & Hb)] & Hv).
    + rewrite int_1 in Hv by lia.
      right. right. right. left. exists a. split; [reflexivity|].
      split; [|reflexivity]. apply in_range_ord. ord_lit. lia.
    + rewrite int_2 in Hv by lia.
      destruct (Z.eq_dec (ord a) 51) as [E|E];
        [|destruct (Z.eq_dec (ord a) 48) as [E'|E']].
      * left. exists a, b. split; [reflexivity|].
        split; [apply is_char_eq, ord_inj; ord_lit; exact E|].
        split; [|reflexivity]. apply in_range_ord. ord_lit. lia.
      * right. right. left. exists a, b. split; [reflexivity|].
        split; [apply is_char_eq, ord_inj; ord_lit; exact E'|].
        split; [|reflexivity]. apply in_range_ord. ord_lit. lia.
      * right. left. exists a, b. split; [reflexivity|].
        split; [apply in_range_ord; ord_lit; lia|].
        split; [|reflexivity]. apply isdigit_ord. lia.
    + assert (a = " "%char) by (apply ord_inj; ord_lit; exact Ha). subst a.
      rewrite int_space in Hv by lia.
      right. right. right. right. exists " "%char, b. split; [reflexivity|].
      split; [reflexivity|].
      split; [|reflexivity]. apply in_range_ord. ord_lit. lia.
Qed.

Lemma denote_re_m p w after g :
  denote Time.re_m p w after g
  <-> g = [] /\ month_text w /\ 1 <= int w <= 12.
Proof.
  unfold Time.re_m, month_text.
  rewrite !denote_or, !denote_cls2, denote_cls, digits_1, digits_2. split.
  - intros [(a & b & -> & Ha & Hb & ->)
           |[(a & b & -> & Ha & Hb & ->)
            |(a & -> & Ha & ->)]]; classes.
    + split; [reflexivity|]. rewrite int_2 by (ord_lit; lia). ord_lit.
      split; [|lia]. right. exists "1"%char, b. ord_lit.
      split; [reflexivity|]. lia.
    + split; [reflexivity|]. rewrite int_2 by (ord_lit; lia). ord_lit.
      split; [|lia]. right. exists "0"%char, b. ord_lit.
      split; [reflexivity|]. lia.
    + split; [reflexivity|]. rewrite int_1 by lia.
      split; [|lia]. left. exists a. split; [reflexivity|]. lia.
  - intros (-> & [(a & -> & Ha)|(a & b & -> & Ha & Hb)] & Hv).
    + rewrite int_1 in Hv by lia.
      right. right. exists a. split; [reflexivity|].
      split; [|reflexivity]. apply in_range_ord. ord_lit. lia.
    + rewrite int_2 in Hv by lia.
      destruct (Z.eq_dec (ord a) 49) as [E|E].
      * left. exists a, b. split; [reflexivity|].
        split; [apply is_char_eq, ord_inj; ord_lit; exact E|].
        split; [|reflexivity]. apply in_range_ord. ord_lit. lia.
      * right. left. exists a, b. split; [reflexivity|].
        split; [apply is_char_eq, ord_inj; ord_lit; lia|].
        split; [|reflexivity]. apply in_range_ord. ord_lit. lia.
Qed.

Lemma denote_re_Y p w after g :
  denote Time.re_Y p w after g <-> g = [] /\ year_text w.
Proof.
  unfold Time.re_Y, year_text. rewrite digits_4. cbn [denote]. split.
  - intros (w1 & w2 & g1 & g2 & -> & -> & (a & -> & Ha & ->)
            & w3 & w4 & g3 & g4 & -> & -> & (b & -> & Hb & ->)
            & w5 & w6 & g5 & g6 & -> & -> & (c & -> & Hc & ->)
            & (d & -> & Hd & ->)).
    classes. split; [reflexivity|]. exists a, b, c, d. tauto.
  - intros (-> & a & b & c & d & -> & Ha & Hb & Hc & Hd).
    apply isdigit_ord in Ha, Hb, Hc, Hd.
    exists (String a ""), (String b (String c (String d ""))), [], [].
    split; [reflexivity|]. split; [reflexivity|]. split; [exists a; tauto|].
    exists (String b ""), (String c (String d "")), [], [].
    split; [reflexivity|]. split; [reflexivity|]. split; [exists b; tauto|].
    exists (String c ""), (String d ""), [], [].
    split; [reflexivity|]. split; [reflexivity|].
    split; [exists c; tauto | exists d; tauto].
Qed.

End BirthdayFacts.

Module StrptimeFacts.

Import FieldSpec BirthdaySpec CharFacts Re ReSpec ReFacts BirthdayFacts.
Import Str.

Ltac split_all :=
  repeat match goal with
    | H : exists _, _ |- _ => destruct H
    | H : _ /\ _ |- _ => destruct H
    end.

Lemma pattern_date : Time.pattern DATE_STR_PATTERN = Some date_re.
Proof. reflexivity. Qed.

(** The texts the compiled pattern matches. *)
Lemma denote_date_re w after g :
  denote date_re 0 w after g
  <-> exists ds ms ys,
        dotted w ds ms ys /\ g = date_groups ds ms ys
        /\ (day_text ds /\ 1 <= int ds <= 31)
        /\ (month_text ms /\ 1 <= int ms <= 12)
        /\ year_text ys.
Proof.
  unfold date_re, dotted, date_groups. split.
  - intros H. cbn [denote] in H.
    destruct H as (w1 & w2 & g1 & g2 & -> & -> & (gd & Hd & ->)
                   & w3 & w4 & g3 & g4 & -> & -> & (c1 & -> & Hc1 & ->)
                   & w5 & w6 & g5 & g6 & -> & -> & (gm & Hm & ->)
                   & w7 & w8 & g7 & g8 & -> & -> & (c2 & -> & Hc2 & ->)
                   & w9 & w10 & g9 & g10 & -> & -> & (gy & Hy & ->)
                   & -> & ->).
    apply denote_re_d in Hd as (-> & Hd).
    apply denote_re_m in Hm as (-> & Hm).
    apply denote_re_Y in Hy as (-> & Hy).
    apply is_char_eq in Hc1, Hc2. subst c1 c2.
    exists w1, w5, w9. rewrite append_nil_r. cbn [app String.append].
    split; [reflexivity|]. split; [reflexivity|]. tauto.
  - intros (ds & ms & ys & -> & -> & Hd & Hm & Hy).
    cbn [denote].
    exists ds, ("." ++ ms ++ "." ++ ys)%string, [("d"%char, ds)],
      [("m"%char, ms); ("Y"%char, ys)].
    split; [reflexivity|]. split; [reflexivity|]. split.
    { exists []. split; [|reflexivity]. apply denote_re_d. tauto. }
    exists ".", (ms ++ "." ++ ys)%string, [], [("m"%char, ms); ("Y"%char, ys)].
    split; [reflexivity|]. split; [reflexivity|]. split.
    { exists "."%char. split; [reflexivity|]. split; [|reflexivity].
      now apply is_char_eq. }
    exists ms, ("." ++ ys)%string, [("m"%char, ms)], [("Y"%char, ys)].
    split; [reflexivity|]. split; [reflexivity|]. split.
    { exists []. split; [|reflexivity]. apply denote_re_m. tauto. }
    exists ".", ys, [], [("Y"%char, ys)].
    split; [reflexivity|]. split; [reflexivity|]. split.
    { exists "."%char. split; [reflexivity|]. split; [|reflexivity].
      now apply is_char_eq. }
    exists ys, "", [("Y"%char, ys)], [].
    split; [now rewrite append_nil_r|]. split; [reflexivity|]. split.
    { exists []. split; [|reflexivity]. apply denote_re_Y. tauto. }
    split; reflexivity.
Qed.

Lemma digit_not_dot a : 48 <= ord a <= 57 \/ ord a = 32 -> a <> "."%char.
Proof. intros Ha ->. revert Ha. ord_lit. lia. Qed.

Lemma day_text_no_dot t : day_text t -> no_dot t.
Proof.
  rewrite day_text_cases. unfold no_dot.
  intros [(a & -> & Ha)|(a & b & -> & Ha & Hb)]; cbn;
    repeat (apply Forall_cons; [apply digit_not_dot; tauto|]); apply Forall_nil.
Qed.

Lemma month_text_no_dot t : month_text t -> no_dot t.
Proof.
  intros Hm. apply day_text_no_dot. unfold day_text, month_text in *. tauto.
Qed.

Lemma split_at_dot t1 t2 r1 r2 :
  no_dot t1 -> no_dot t2 ->
  (t1 ++ String "." r1)%string = (t2 ++ String "." r2)%string ->
  t1 = t2 /\ r1 = r2.
Proof.
  unfold no_dot. revert t2. induction t1 as [|c t1 IH]; intros t2 H1 H2 E.
  - destruct t2 as [|c2 t2]; cbn in *.
    + injection E as ->. tauto.
    + injection E as <- _. inversion H2; congruence.
  - destruct t2 as [|c2 t2]; cbn in *.
    + injection E as -> _. inversion H1; congruence.
    + injection E as -> E. inversion H1; subst. inversion H2; subst.
      destruct (IH t2) as [-> ->]; auto.
Qed.

Lemma append_same_length a b r1 r2 :
  String.length a = String.length b ->
  (a ++ r1)%string = (b ++ r2)%string -> a = b /\ r1 = r2.
Proof.
  revert b. induction a as [|c a IH]; intros [|c' b] Hl E; cbn in *;
    try discriminate.
  - tauto.
  - injection E as -> E. injection Hl as Hl.
    destruct (IH b Hl E) as [-> ->]. tauto.
Qed.

(** A text has at most one match of the date pattern at its start. *)
Lemma date_re_unique w1 a1 g1 w2 a2 g2 :
  denote date_re 0 w1 a1 g1 -> denote date_re 0 w2 a2 g2 ->
  (w1 ++ a1)%string = (w2 ++ a2)%string ->
  w1 = w2 /\ g1 = g2 /\ a1 = a2.
Proof.
  rewrite !denote_date_re. unfold dotted.
  intros (d1 & m1 & y1 & -> & -> & [Hd1 _] & [Hm1 _] & Hy1)
         (d2 & m2 & y2 & -> & -> & [Hd2 _] & [Hm2 _] & Hy2) E.
  rewrite !append_assoc in E. cbn [String.append] in E.
  apply split_at_dot in E as [-> E]; try now apply day_text_no_dot.
  apply split_at_dot in E as [-> E]; try now apply month_text_no_dot.
  apply append_same_length in E as [-> ->].
  - tauto.
  - destruct Hy1 as [-> _], Hy2 as [-> _]. reflexivity.
Qed.

Lemma match_date s y :
  In y (run date_re (start s)) -> match_ date_re s = Some y.
Proof.
  intros Hy. unfold match_.
  destruct (run date_re (start s)) as [|y0 l] eqn:E; [contradiction|].
  cbn. f_equal.
  assert (H0 : In y0 (run date_re (start s))) by (rewrite E; now left).
  rewrite <- E in Hy.
  apply run_denote in Hy as (w & g & (Hr & Hp & Hc) & Hd).
  apply run_denote in H0 as (w0 & g0 & (Hr0 & Hp0 & Hc0) & Hd0).
  cbn [start rest pos caps] in *.
  destruct (date_re_unique _ _ _ _ _ _ Hd0 Hd) as (-> & -> & Hrest);
    [congruence|].
  apply st_eq; congruence.
Qed.

Lemma leap_year_is_leap y : leap_year y = Date._is_leap y.
Proof.
  unfold leap_year, Date._is_leap.
  destruct (Z.eqb_spec (y mod 400) 0), (Z.eqb_spec (y mod 100) 0),
    (Z.eqb_spec (y mod 4) 0); cbn; try reflexivity; exfalso;
    Z.to_euclidean_division_equations; lia.
Qed.

Lemma month_length_days y m :
  1 <= m <= 12 -> month_length y m = Date._days_in_month y m.
Proof.
  intros Hm. unfold month_length, Date._days_in_month.
  rewrite leap_year_is_leap.
  DateFacts.by_month Hm; destruct (Date._is_leap y); reflexivity.
Qed.

Lemma real_date_valid y m d : real_date y m d <-> Date.valid (Date.mkdate y m d).
Proof.
  unfold real_date, Date.valid, Date.MINYEAR, Date.MAXYEAR. cbn.
  split; intros (Hy & Hm & Hd); (split; [exact Hy|]); (split; [exact Hm|]).
  - now rewrite <- month_length_days.
  - now rewrite month_length_days.
Qed.

Lemma group_date_Y ds ms ys d :
  Time.group_int "Y" (date_groups ds ms ys) d = int ys.
Proof. reflexivity. Qed.

Lemma group_date_m ds ms ys d :
  Time.group_int "m" (date_groups ds ms ys) d = int ms.
Proof. reflexivity. Qed.

Lemma group_date_d ds ms ys d :
  Time.group_int "d" (date_groups ds ms ys) d = int ds.
Proof. reflexivity. Qed.

Lemma day_real_31 y m d : real_date y m d -> 1 <= m <= 12 /\ 1 <= d <= 31.
Proof.
  unfold real_date, month_length. intros (_ & Hm & Hd). split; [exact Hm|].
  destruct (m =? 2); [destruct (leap_year y); lia|].
  destruct ((m =? 4) || (m =? 6) || (m =? 9) || (m =? 11)); lia.
Qed.

(** [strptime] on the date format: the texts it accepts and the dates. *)
Theorem strptime_accepted s a :
  Time.strptime s DATE_STR_PATTERN = Ok a <-> accepted s a.
Proof.
  unfold Time.strptime. rewrite pattern_date. split.
  - destruct (match_ date_re s) as [found|] eqn:Em; [|discriminate].
    destruct (at_end found) eqn:Ee; cbn [negb]; [|discriminate].
    intros Hnew.
    assert (Hin : In found (run date_re (start s))).
    { unfold match_ in Em. destruct (run date_re (start s)); [discriminate|].
      injection Em as ->. now left. }
    apply run_denote in Hin as (w & g & (Hr & Hp & Hc) & Hd).
    unfold at_end in Ee. destruct (rest found); [|discriminate].
    cbn [start rest pos caps app] in *. rewrite append_nil_r in Hr. subst w.
    apply denote_date_re in Hd as (ds & ms & ys & Hs & -> & [Hd _] & [Hm _] & Hy).
    rewrite Hc, group_date_Y, group_date_m, group_date_d in Hnew.
    apply DateFacts.new_inv in Hnew as [-> Hv].
    exists ds, ms, ys. rewrite real_date_valid. tauto.
  - intros (ds & ms & ys & Hs & Hd & Hm & Hy & Hreal & ->).
    pose proof (day_real_31 _ _ _ Hreal) as [Hm12 Hd31].
    set (y := mkst (String.length s) "" (date_groups ds ms ys)).
    assert (Hin : In y (run date_re (start s))).
    { apply run_denote. exists s, (date_groups ds ms ys). split.
      - unfold step. cbn. now rewrite append_nil_r.
      - apply denote_date_re. exists ds, ms, ys. tauto. }
    rewrite (match_date s y Hin). cbn [at_end rest y negb caps].
    rewrite group_date_Y, group_date_m, group_date_d.
    apply DateFacts.new_ok. now apply real_date_valid.
Qed.


(** The constructor of [Birthday] on a text. *)
Lemma birthday_init_ok s b :
  Birthday.__init__ (Some s) = Ok b
  <-> exists a, accepted s a /\ b = Field.make (Some a).
Proof.
  unfold Birthday.__init__, Birthday.set_value. split.
  - destruct (Time.strptime s DATE_STR_PATTERN) as [a|e] eqn:E.
    + intros [= <-]. exists a. split; [now apply strptime_accepted | reflexivity].
    + destruct e; discriminate.
  - intros (a & Ha & ->). apply strptime_accepted in Ha. now rewrite Ha.
Qed.



(** Formatting a number read from digits gives the digits back. *)
Lemma zfill2_digits a b :
  48 <= ord a <= 57 -> 48 <= ord b <= 57 ->
  zfill 2 (int (String a (String b ""))) = String a (String b "").
Proof.
  intros Ha Hb. rewrite int_2 by assumption.
  set (v := 10 * (ord a - 48) + (ord b - 48)).
  assert (Hv : zfill2_ok v = true).
  { apply (DateFacts.forallb_Zrange zfill2_ok 0 100);
      [vm_compute; reflexivity | unfold v; lia]. }
  unfold zfill2_ok in Hv. apply String.eqb_eq in Hv. rewrite Hv.
  replace (48 + v / 10) with (ord a)
    by (unfold v; Z.to_euclidean_division_equations; lia).
  replace (48 + v mod 10) with (ord b)
    by (unfold v; Z.to_euclidean_division_equations; lia).
  now rewrite !chr_ord.
Qed.

Lemma zfill4_digits a b c d :
  48 <= ord a <= 57 -> 48 <= ord b <= 57 ->
  48 <= ord c <= 57 -> 48 <= ord d <= 57 ->
  zfill 4 (int (String a (String b (String c (String d "")))))
  = String a (String b (String c (String d ""))).
Proof.
  intros Ha Hb Hc Hd. rewrite int_4 by assumption.
  set (v := 1000 * (ord a - 48) + 100 * (ord b - 48) + 10 * (ord c - 48)
            + (ord d - 48)).
  assert (Hv : zfill4_ok v = true).
  { apply (DateFacts.forallb_Zrange zfill4_ok 0 (Z.to_nat 10000));
      [vm_compute; reflexivity | unfold v; lia]. }
  unfold zfill4_ok in Hv. apply String.eqb_eq in Hv. rewrite Hv.
  replace (48 + v / 1000) with (ord a)
    by (unfold v; Z.to_euclidean_division_equations; lia).
  replace (48 + (v / 100) mod 10) with (ord b)
    by (unfold v; Z.to_euclidean_division_equations; lia).
  replace (48 + (v / 10) mod 10) with (ord c)
    by (unfold v; Z.to_euclidean_division_equations; lia).
  replace (48 + v mod 10) with (ord d)
    by (unfold v; Z.to_euclidean_division_equations; lia).
  now rewrite !chr_ord.
Qed.

Lemma zfill2_text t : digits 2 t -> zfill 2 (int t) = t.
Proof.
  rewrite digits_2. intros (a & b & -> & Ha & Hb). now apply zfill2_digits.
Qed.

Lemma zfill4_text t : digits 4 t -> zfill 4 (int t) = t.
Proof.
  rewrite digits_4. intros (a & b & c & d & -> & Ha & Hb & Hc & Hd).
  now apply zfill4_digits.
Qed.

End StrptimeFacts.

Module BirthdayClaims.

Import FieldSpec BirthdaySpec CharFacts ReFacts BirthdayFacts StrptimeFacts.

Lemma dd_mm_yyyy_accepted s ds ms ys :
  dd_mm_yyyy s ds ms ys ->
  real_date (Str.int ys) (Str.int ms) (Str.int ds) ->
  accepted s (Date.mkdate (Str.int ys) (Str.int ms) (Str.int ds)).
Proof.
  intros (Hs & Hd & Hm & Hy) Hreal. exists ds, ms, ys.
  unfold day_text, month_text, year_text. tauto.
Qed.



(** C5 (amended): for every text of the pattern DD.MM.YYYY that denotes a
    real calendar date, the Birthday is constructed and holds that date;
    rendering the field gives the ISO form YYYY-MM-DD with the same digits,
    not the text itself; formatting the stored date with the pattern
    DD.MM.YYYY gives the text back for the years from 1000 on; an unset
    field renders as the empty text. *)
Theorem birthday_render `{Libc} (s ds ms ys : string) :
  dd_mm_yyyy s ds ms ys ->
  real_date (Str.int ys) (Str.int ms) (Str.int ds) ->
  exists b a,
    Birthday.__init__ (Some s) = Ok b
    /\ Field.value b = Some a
    /\ a = Date.mkdate (Str.int ys) (Str.int ms) (Str.int ds)
    /\ Field.__str__ b = (ys ++ "-" ++ ms ++ "-" ++ ds)%string
    /\ (1000 <= Date.year a -> Time.strftime DATE_STR_PATTERN a = s)
    /\ Birthday.__init__ None = Ok (Field.make None)
    /\ Field.__str__ (Field.make (@None Date.date)) = EmptyString.
Proof.
  intros Hp Hreal.
  pose proof (dd_mm_yyyy_accepted _ _ _ _ Hp Hreal) as Hacc.
  destruct Hp as (Hs & Hd & Hm & Hy).
  exists (Field.make (Some (Date.mkdate (Str.int ys) (Str.int ms) (Str.int ds)))).
  eexists. split.
  { apply birthday_init_ok. eexists. split; [exact Hacc | reflexivity]. }
  split; [reflexivity|]. split; [reflexivity|].
  split.
  { unfold Field.__str__, py_str, PyStr_date, Time.isoformat. cbn [Field.value Date.year Date.month Date.day].
    now rewrite (zfill4_text _ Hy), (zfill2_text _ Hm), (zfill2_text _ Hd). }
  split; [|split; reflexivity].
  cbn [Date.year]. intros Hyear.
  change (Time.strftime DATE_STR_PATTERN
            (Date.mkdate (Str.int ys) (Str.int ms) (Str.int ds)))
    with (Str.zfill 2 (Str.int ds) ++ "." ++ Str.zfill 2 (Str.int ms) ++ "."
          ++ strftime_Y (Str.int ys) ++ "")%string.
  rewrite strftime_Y_four by (destruct Hreal as [? _]; lia).
  rewrite (zfill4_text _ Hy), (zfill2_text _ Hm), (zfill2_text _ Hd), append_nil_r.
  symmetry. exact Hs.
Qed.

Lemma birthday_render_witness :
  dd_mm_yyyy "13.05.2024" "13" "05" "2024"
  /\ real_date (Str.int "2024") (Str.int "05") (Str.int "13")
  /\ exists b a,
       Birthday.__init__ (Some "13.05.2024") = Ok b
       /\ Field.value b = Some a
       /\ a = Date.mkdate (Str.int "2024") (Str.int "05") (Str.int "13")
       /\ Field.__str__ b = ("2024" ++ "-" ++ "05" ++ "-" ++ "13")%string
       /\ (1000 <= Date.year a -> Time.strftime DATE_STR_PATTERN a = "13.05.2024")
       /\ Birthday.__init__ None = Ok (Field.make None)
       /\ Field.__str__ (Field.make (@None Date.date)) = EmptyString.
Proof.
  assert (Hp : dd_mm_yyyy "13.05.2024" "13" "05" "2024").
  { split; [reflexivity|].
    split; [|split]; (split; [reflexivity|]);
      repeat (apply Forall_cons; [apply decimal_digit_ord; vm_compute; split; discriminate|]);
      apply Forall_nil. }
  assert (Hreal : real_date (Str.int "2024") (Str.int "05") (Str.int "13")).
  { vm_compute. repeat split; discriminate. }
  split; [exact Hp|]. split; [exact Hreal|].
  exact (birthday_render "13.05.2024" "13" "05" "2024" Hp Hreal).
Defined.

(** C5 (as stated) fails: the field built from "13.05.2024" renders as
    "2024-05-13". *)
Lemma birthday_render_counterexample :
  exists b,
    Birthday.__init__ (Some "13.05.2024") = Ok b
    /\ Field.__str__ b = "2024-05-13"
    /\ Field.__str__ b <> "13.05.2024".
Proof.
  exists (Field.make (Some (Date.mkdate 2024 5 13))).
  split; [vm_compute; reflexivity|].
  split; [vm_compute; reflexivity|].
  vm_compute. discriminate.
Qed.

End BirthdayClaims.

Module RecordExtras.

Import FieldSpec FieldFacts ContactRecord.

Lemma phone_init_digits s :
  ten_digits s -> Phone.__init__ (Some s) = Ok (Field.make (Some s)).
Proof.
  rewrite ten_digits_skip, <- fullmatch_ten. intros [m Hm].
  unfold Phone.__init__, Phone.set_value. now rewrite Hm.
Qed.


Lemma has_value_true v (p : Phone.t) : has_value v p = true <-> Field.value p = v.
Proof.
  unfold has_value, value_eqb.
  destruct (Field.value p) as [x|], v as [y|]; split; try discriminate;
    try reflexivity.
  - intros E. apply String.eqb_eq in E. congruence.
  - intros [= ->]. apply String.eqb_refl.
Qed.

Lemma has_value_false v (p : Phone.t) : has_value v p = false <-> Field.value p <> v.
Proof.
  rewrite <- has_value_true. destruct (has_value v p); split; congruence.
Qed.

Lemma find_first v (l1 : list Phone.t) (p : Phone.t) (l2 : list Phone.t) :
  Field.value p = v -> (forall q, In q l1 -> Field.value q <> v) ->
  find (has_value v) (l1 ++ p :: l2) = Some p.
Proof.
  intros Hp Hl1. induction l1 as [|q l1 IH]; cbn.
  - apply has_value_true in Hp. now rewrite Hp.
  - assert (Hq : has_value v q = false)
      by (apply has_value_false, Hl1; now left).
    rewrite Hq. apply IH. intros q' Hin. apply Hl1. now right.
Qed.

Lemma remove_first_split v (l1 : list Phone.t) (p : Phone.t) (l2 : list Phone.t) :
  Field.value p = v -> (forall q, In q l1 -> Field.value q <> v) ->
  remove_first v (l1 ++ p :: l2) = l1 ++ l2.
Proof.
  intros Hp Hl1. induction l1 as [|q l1 IH]; cbn.
  - apply has_value_true in Hp. now rewrite Hp.
  - assert (Hq : has_value v q = false)
      by (apply has_value_false, Hl1; now left).
    rewrite Hq. f_equal. apply IH. intros q' Hin. apply Hl1. now right.
Qed.


Lemma find_absent v (l : list Phone.t) :
  (forall q, In q l -> Field.value q <> v) -> find (has_value v) l = None.
Proof.
  intros Hl. induction l as [|q l IH]; [reflexivity|]. cbn.
  assert (Hq : has_value v q = false) by (apply has_value_false, Hl; now left).
  rewrite Hq. apply IH. intros q' Hin. apply Hl. now right.
Qed.


(** X2: [remove_phone] removes the first phone that has the value and no
    other: the phones before it and after it stay, in order, later phones
    with the same value included. *)
Theorem remove_phone_first (r : t) (v : option string) (l1 l2 : list Phone.t)
  (p : Phone.t) :
  phones r = l1 ++ p :: l2 ->
  Field.value p = v ->
  (forall q, In q l1 -> Field.value q <> v) ->
  remove_phone r v = (true, make (name r) (l1 ++ l2) (birthday r)).
Proof.
  intros Hr Hp Hl1. unfold remove_phone, find_phone. rewrite Hr.
  rewrite (find_first v l1 p l2 Hp Hl1).
  now rewrite (remove_first_split v l1 p l2 Hp Hl1).
Qed.

Lemma remove_phone_first_witness :
  phones two_phones
  = [Field.make (Some "1234567890")] ++ Field.make (Some "0987654321") :: []
  /\ Field.value (T := string) (Field.make (Some "0987654321")) = Some "0987654321"
  /\ (forall q, In q [Field.make (Some "1234567890")] ->
                Field.value q <> Some "0987654321")
  /\ remove_phone two_phones (Some "0987654321")
     = (true, make (name two_phones)
                ([Field.make (Some "1234567890")] ++ []) (birthday two_phones)).
Proof.
  assert (H1 : forall q : Phone.t, In q [Field.make (Some "1234567890")] ->
                           Field.value q <> Some "0987654321").
  { intros q [<-|[]]. discriminate. }
  split; [reflexivity|]. split; [reflexivity|]. split; [exact H1|].
  exact (remove_phone_first two_phones (Some "0987654321")
           [Field.make (Some "1234567890")] []
           (Field.make (Some "0987654321")) eq_refl eq_refl H1).
Defined.

(** X3: when the value is not stored, [remove_phone] answers [False] and
    the record is unchanged. *)
Theorem remove_phone_absent (r : t) (v : option string) :
  (forall q, In q (phones r) -> Field.value q <> v) ->
  remove_phone r v = (false, r).
Proof.
  intros Habs. unfold remove_phone, find_phone.
  now rewrite (find_absent v _ Habs).
Qed.

Lemma remove_phone_absent_witness :
  (forall q, In q (phones two_phones) -> Field.value q <> Some "5555555555")
  /\ remove_phone two_phones (Some "5555555555") = (false, two_phones).
Proof.
  assert (Habs : forall q, In q (phones two_phones) ->
                           Field.value q <> Some "5555555555").
  { intros q [<-|[<-|[]]]; discriminate. }
  split; [exact Habs|].
  exact (remove_phone_absent two_phones (Some "5555555555") Habs).
Defined.




(** X5: adding a number that is not stored and removing it again gives the
    record back. *)
Theorem remove_after_add (r : t) (s : string) :
  ten_digits s ->
  (forall q, In q (phones r) -> Field.value q <> Some s) ->
  exists r', add_phone r (Some s) = Ok r'
             /\ remove_phone r' (Some s) = (true, r).
Proof.
  intros Hs Habs. eexists. split.
  - unfold add_phone. rewrite (phone_init_digits s Hs). reflexivity.
  - unfold remove_phone, find_phone. cbn [phones name birthday].
    rewrite (find_first (Some s) (phones r) (Field.make (Some s)) [] eq_refl Habs).
    rewrite (remove_first_split (Some s) (phones r) (Field.make (Some s)) []
               eq_refl Habs).
    rewrite app_nil_r. destruct r; reflexivity.
Qed.

Lemma ten_digits_example : ten_digits "5555555555".
Proof. apply ten_digits_skip. reflexivity. Qed.

Lemma remove_after_add_witness :
  ten_digits "5555555555"
  /\ (forall q, In q (phones two_phones) -> Field.value q <> Some "5555555555")
  /\ exists r', add_phone two_phones (Some "5555555555") = Ok r'
                /\ remove_phone r' (Some "5555555555") = (true, two_phones).
Proof.
  assert (Habs : forall q, In q (phones two_phones) ->
                           Field.value q <> Some "5555555555").
  { intros q [<-|[<-|[]]]; discriminate. }
  split; [exact ten_digits_example|]. split; [exact Habs|].
  exact (remove_after_add two_phones "5555555555" ten_digits_example Habs).
Defined.

End RecordExtras.

Module DirectoryExtras.

Import AddressBook DirectorySpec DirectoryFacts BookSpec.

Lemma get_delitem_same {V : Type} k (d : Dict.t V) :
  NoDup (Dict.keys d) -> Dict.get k (Dict.delitem k d) = None.
Proof.
  induction d as [|[k' v'] d IH]; [reflexivity|].
  cbn [Dict.keys map fst Dict.delitem]. intros Hnd.
  inversion Hnd as [|? ? Hn Hnd']; subst.
  destruct (String.eqb_spec k' k) as [->|Hne].
  - destruct (Dict.get k d) as [v|] eqn:E; [|reflexivity].
    exfalso. apply Hn. apply DictFacts.contains_In.
    unfold Dict.contains. now rewrite E.
  - cbn [Dict.get]. destruct (String.eqb_spec k' k); [congruence|].
    apply IH, Hnd'.
Qed.

Lemma get_delitem_other {V : Type} k k' (d : Dict.t V) :
  k' <> k -> Dict.get k' (Dict.delitem k d) = Dict.get k' d.
Proof.
  intros Hne. induction d as [|[k0 v0] d IH]; [reflexivity|].
  cbn [Dict.delitem Dict.get]. destruct (String.eqb_spec k0 k) as [->|Hk].
  - destruct (String.eqb_spec k k'); [congruence | reflexivity].
  - cbn [Dict.get]. destruct (String.eqb k0 k'); [reflexivity | exact IH].
Qed.

Lemma delitem_setitem_new {V : Type} k (v : V) (d : Dict.t V) :
  Dict.get k d = None -> Dict.delitem k (Dict.setitem k v d) = d.
Proof.
  induction d as [|[k0 v0] d IH]; cbn [Dict.get Dict.setitem Dict.delitem].
  - now rewrite String.eqb_refl.
  - destruct (String.eqb k0 k) eqn:E; [discriminate|].
    intros Hg. cbn [Dict.delitem]. rewrite E. f_equal. apply IH, Hg.
Qed.

(** X6: after [add_record], a name finds the added record when it has the
    normal form of the record's name, and what it found before otherwise. *)
Theorem find_add_record (book book' : AddressBook.t) (r : ContactRecord.t)
  (n m : string) :
  name_value r = Some n ->
  add_record book r = Ok book' ->
  find book' m
  = if String.eqb (normalize m) (normalize n) then Some r else find book m.
Proof.
  intros Hn E. rewrite (add_record_named book r n Hn) in E. injection E as <-.
  unfold find. destruct (String.eqb_spec (normalize m) (normalize n)) as [->|Hne].
  - apply DictFacts.get_setitem.
  - apply DictFacts.get_setitem_other. exact Hne.
Qed.

Lemma find_add_record_witness :
  name_value (named "Bob") = Some "Bob"
  /\ add_record [("alice", named "Alice")] (named "Bob")
     = Ok [("alice", named "Alice"); ("bob", named "Bob")]
  /\ find [("alice", named "Alice"); ("bob", named "Bob")] " BOB "
     = if String.eqb (normalize " BOB ") (normalize "Bob")
       then Some (named "Bob")
       else find [("alice", named "Alice")] " BOB ".
Proof.
  split; [reflexivity|]. split; [reflexivity|].
  exact (find_add_record [("alice", named "Alice")]
           [("alice", named "Alice"); ("bob", named "Bob")]
           (named "Bob") "Bob" " BOB " eq_refl eq_refl).
Defined.

(** X7: after [delete], the deleted name (in any spelling with the same
    normal form) finds nothing and every other name finds what it found
    before; deleting a name that is not stored changes nothing. *)
Theorem find_delete (book : AddressBook.t) (n m : string) :
  distinct_keys book ->
  find (delete book n) m
  = (if String.eqb (normalize m) (normalize n) then None else find book m)
  /\ (find book n = None -> delete book n = book).
Proof.
  intros Hnd. unfold find, delete, Dict.contains. split.
  - destruct (Dict.get (normalize n) book) as [r|] eqn:E.
    + destruct (String.eqb_spec (normalize m) (normalize n)) as [->|Hne].
      * apply get_delitem_same, Hnd.
      * apply get_delitem_other, Hne.
    + destruct (String.eqb_spec (normalize m) (normalize n)) as [->|Hne];
        [exact E | reflexivity].
  - now intros ->.
Qed.

Lemma find_delete_witness :
  distinct_keys [("alice", named "Alice"); ("bob", named "Bob")]
  /\ find (delete [("alice", named "Alice"); ("bob", named "Bob")] "ALICE") "Bob"
     = (if String.eqb (normalize "Bob") (normalize "ALICE") then None
        else find [("alice", named "Alice"); ("bob", named "Bob")] "Bob")
  /\ (find [("alice", named "Alice"); ("bob", named "Bob")] "ALICE" = None ->
      delete [("alice", named "Alice"); ("bob", named "Bob")] "ALICE"
      = [("alice", named "Alice"); ("bob", named "Bob")]).
Proof.
  assert (Hnd : distinct_keys [("alice", named "Alice"); ("bob", named "Bob")]).
  { repeat constructor; cbn; intuition discriminate. }
  split; [exact Hnd|].
  exact (find_delete [("alice", named "Alice"); ("bob", named "Bob")]
           "ALICE" "Bob" Hnd).
Defined.

(** X8: adding a record under a name that is not stored and deleting that
    name again gives the directory back. *)
Theorem delete_after_add (book : AddressBook.t) (r : ContactRecord.t)
  (n : string) :
  name_value r = Some n ->
  find book n = None ->
  exists book', add_record book r = Ok book' /\ delete book' n = book.
Proof.
  intros Hn Hf. exists (Dict.setitem (normalize n) r book).
  split; [apply add_record_named, Hn|].
  unfold delete, Dict.contains. rewrite DictFacts.get_setitem.
  apply delitem_setitem_new. exact Hf.
Qed.

Lemma delete_after_add_witness :
  name_value (named "Bob") = Some "Bob"
  /\ find [("alice", named "Alice")] "Bob" = None
  /\ exists book',
       add_record [("alice", named "Alice")] (named "Bob") = Ok book'
       /\ delete book' "Bob" = [("alice", named "Alice")].
Proof.
  split; [reflexivity|]. split; [reflexivity|].
  exact (delete_after_add [("alice", named "Alice")] (named "Bob") "Bob"
           eq_refl eq_refl).
Defined.

End DirectoryExtras.


Module UpcomingExtras.

Import Date DateSpec DateFacts BookSpec AddressBook UpcomingFacts Examples.

Lemma valid_of_validb a : validb a = true -> valid a.
Proof.
  unfold validb.
  destruct (new (year a) (month a) (day a)) as [b|e] eqn:E; [|discriminate].
  intros _. apply new_inv in E as [-> Hv]. destruct a; exact Hv.
Qed.





Lemma shifted_working_day occ :
  valid occ ->
  0 <= weekday (shifted occ) <= 4
  /\ 0 <= days_between (shifted occ) occ <= 2
  /\ valid (shifted occ).
Proof.
  intros Hocc. destruct (adjusted_of_valid occ Hocc) as (a & Ea & Ha & Hd & Hsame).
  unfold shifted. rewrite Ea. unfold days_between, weekend_shift, weekday in *.
  split; [|split; [|exact Ha]].
  - destruct (Z.eqb_spec ((toordinal occ + 6) mod 7) 5) as [E5|E5];
      [|destruct (Z.eqb_spec ((toordinal occ + 6) mod 7) 6) as [E6|E6]].
    + Z.to_euclidean_division_equations; lia.
    + Z.to_euclidean_division_equations; lia.
    + rewrite (Hsame E5 E6). Z.to_euclidean_division_equations; lia.
  - destruct (Z.eqb_spec ((toordinal occ + 6) mod 7) 5);
      [|destruct (Z.eqb_spec ((toordinal occ + 6) mod 7) 6)]; lia.
Qed.

Section WithLibc.

Context `{Libc}.

Lemma in_window_iff now rb :
  in_window now rb = true <-> 0 <= diffDays now (snd rb) <= 7.
Proof. unfold in_window. rewrite andb_true_iff, !Z.leb_le. tauto. Qed.

Lemma days_between_trans a b c :
  days_between a c = days_between a b + days_between b c.
Proof. unfold days_between. lia. Qed.

Lemma diffDays_eq now b :
  diffDays now b = days_between (occurrence now b) now.
Proof. reflexivity. Qed.

(** What the query reports for one included contact. *)
Lemma item_working_day (now : date) (rb : ContactRecord.t * date) :
  valid now -> occurrence_exists now (snd rb) -> in_window now rb = true ->
  exists adj,
    valid adj
    /\ congratulation_date (item_of now rb) = Time.strftime "%Y-%m-%d" adj
    /\ 0 <= weekday adj <= 4
    /\ 0 <= days_between adj now <= 9.
Proof.
  intros Hnow Hex Hw.
  destruct (shifted_working_day _ (proj2 Hex)) as (Hwd & Hs & Hv).
  exists (shifted (occurrence now (snd rb))).
  split; [exact Hv|]. split; [exact eq_refl|]. split; [exact Hwd|].
  apply in_window_iff in Hw. rewrite diffDays_eq in Hw.
  rewrite (days_between_trans _ (occurrence now (snd rb)) now).
  revert Hs Hw.
  generalize (days_between (shifted (occurrence now (snd rb)))
                (occurrence now (snd rb))),
    (days_between (occurrence now (snd rb)) now).
  intros x y Hs Hw. lia.
Qed.

(** X10: every date the query reports is a day from Monday to Friday, not
    before the reference date and at most 9 days after it. *)
Theorem reported_working_day (book : AddressBook.t) (now : date)
  (res : list item) :
  valid now ->
  get_upcoming_birthdays book now = Ok res ->
  Forall (fun e =>
            exists adj,
              valid adj
              /\ congratulation_date e = Time.strftime "%Y-%m-%d" adj
              /\ 0 <= weekday adj <= 4
              /\ 0 <= days_between adj now <= 9) res.
Proof.
  intros Hnow E. unfold get_upcoming_birthdays in E.
  pose proof (loop_inv _ _ _ _ Hnow E) as Hall.
  rewrite (loop_exists _ _ _ Hnow Hall) in E. cbn [app] in E.
  injection E as <-.
  unfold all_exist in Hall. rewrite Forall_forall in Hall.
  apply Forall_forall. intros e He. apply in_map_iff in He as (rb & <- & Hin).
  apply filter_In in Hin as [Hin Hw].
  exact (item_working_day now rb Hnow (Hall rb Hin) Hw).
Qed.

(** X11: a directory that holds a birthday of 29 February makes the query
    raise at every reference date of a year that is not leap, and at every
    reference date after 29 February of a leap year. *)
Theorem feb29_raises_always (book : AddressBook.t) (now : date)
  (r : ContactRecord.t) (bday : date) :
  valid now ->
  In (r, bday) (with_birthday book) ->
  is_feb29 bday = true ->
  _is_leap (year now) = false \/ lt (mkdate (year now) 2 29) now = true ->
  exists msg, get_upcoming_birthdays book now = Raise (ValueError msg).
Proof.
  intros Hnow Hin Hf [Hleap|Hpast].
  - apply (feb29_raises book now r bday Hnow Hin Hf Hleap).
  - apply loop_raises; [exact Hnow|].
    intros Hall. unfold all_exist in Hall. rewrite Forall_forall in Hall.
    destruct (Hall _ Hin) as [Hthis Hocc]. cbn [snd] in *.
    unfold is_feb29 in Hf. apply andb_true_iff in Hf as [Hm Hd].
    apply Z.eqb_eq in Hm, Hd. rewrite Hm, Hd in *.
    unfold occurrence in Hocc. rewrite Hm, Hd in Hocc.
    rewrite (lt_toordinal _ _ Hthis Hnow) in Hpast. apply Z.ltb_lt in Hpast.
    unfold days_between in Hocc.
    replace (toordinal (mkdate (year now) 2 29) - toordinal now <? 0)
      with true in Hocc by (symmetry; apply Z.ltb_lt; lia).
    destruct Hthis as (_ & _ & Hd1). destruct Hocc as (_ & _ & Hd2).
    cbn [year month day] in Hd1, Hd2. unfold _days_in_month in Hd1, Hd2.
    cbn [Z.eqb Pos.eqb andb] in Hd1, Hd2.
    destruct (_is_leap (year now)) eqn:L1.
    + destruct (_is_leap (year now + 1)) eqn:L2.
      * apply is_leap_spec in L1, L2. Z.to_euclidean_division_equations; lia.
      * change (tbl _DAYS_IN_MONTH 2) with 28 in Hd2. lia.
    + change (tbl _DAYS_IN_MONTH 2) with 28 in Hd1. lia.
Qed.

End WithLibc.

Lemma reported_working_day_witness :
  valid saturday
  /\ get_upcoming_birthdays may_book saturday = Ok may_items
  /\ Forall (fun e =>
               exists adj,
                 valid adj
                 /\ congratulation_date e = Time.strftime "%Y-%m-%d" adj
                 /\ 0 <= weekday adj <= 4
                 /\ 0 <= days_between adj saturday <= 9) may_items.
Proof.
  assert (Hnow : valid saturday) by (apply valid_of_validb; reflexivity).
  assert (E : get_upcoming_birthdays may_book saturday = Ok may_items)
    by (vm_compute; reflexivity).
  split; [exact Hnow|]. split; [exact E|].
  exact (reported_working_day may_book saturday may_items Hnow E).
Defined.

(** 15 March 2024: a leap year, after 29 February. *)
Lemma feb29_raises_always_witness :
  valid (mkdate 2024 3 15)
  /\ In (snd (nth 1 leap_book ("", DirectorySpec.named "")), mkdate 2000 2 29)
        (with_birthday leap_book)
  /\ is_feb29 (mkdate 2000 2 29) = true
  /\ (_is_leap (year (mkdate 2024 3 15)) = false
      \/ lt (mkdate (year (mkdate 2024 3 15)) 2 29) (mkdate 2024 3 15) = true)
  /\ exists msg,
       get_upcoming_birthdays leap_book (mkdate 2024 3 15)
       = Raise (ValueError msg).
Proof.
  assert (Hnow : valid (mkdate 2024 3 15)) by (apply valid_of_validb; reflexivity).
  assert (Hin : In (snd (nth 1 leap_book ("", DirectorySpec.named "")),
                    mkdate 2000 2 29) (with_birthday leap_book))
    by (right; left; reflexivity).
  assert (Hp : _is_leap (year (mkdate 2024 3 15)) = false
               \/ lt (mkdate (year (mkdate 2024 3 15)) 2 29) (mkdate 2024 3 15) = true)
    by (right; reflexivity).
  split; [exact Hnow|]. split; [exact Hin|]. split; [reflexivity|].
  split; [exact Hp|].
  exact (feb29_raises_always leap_book (mkdate 2024 3 15) _ (mkdate 2000 2 29)
           Hnow Hin eq_refl Hp).
Defined.

End UpcomingExtras.

Module CliFacts.

Import AddressBook DirectorySpec BookSpec FieldSpec RecordExtras.
Import Cli.



Lemma handle_attribute msg : handle (Other (AttributeError msg)) = NO_CONTACT.
Proof. reflexivity. Qed.

Lemma setitem_same {V : Type} k (v : V) (d : Dict.t V) :
  Dict.get k d = Some v -> Dict.setitem k v d = d.
Proof.
  induction d as [|[k0 v0] d IH]; [discriminate|].
  cbn [Dict.get Dict.setitem]. destruct (String.eqb k0 k).
  - now intros [= ->].
  - intros Hg. f_equal. apply IH, Hg.
Qed.

Lemma find_setitem book n r m :
  find (Dict.setitem (normalize n) r book) m
  = if String.eqb (normalize m) (normalize n) then Some r else find book m.
Proof.
  unfold find. destruct (String.eqb_spec (normalize m) (normalize n)) as [->|Hne].
  - apply DictFacts.get_setitem.
  - apply DictFacts.get_setitem_other. exact Hne.
Qed.

Lemma length_two {A : Type} (a b : A) rest :
  (List.length (a :: b :: rest) <? 2)%nat = false.
Proof. reflexivity. Qed.

Lemma length_three {A : Type} (a b c : A) rest :
  (List.length (a :: b :: c :: rest) <? 3)%nat = false.
Proof. reflexivity. Qed.

(** The handlers, step by step. *)
Lemma add_contact_found name phone rest book r :
  find book name = Some r ->
  Body.add_contact (name :: phone :: rest) book
  = match ContactRecord.add_phone r (Some phone) with
    | Ok r' => (Ok "Contact updated.", Dict.setitem (normalize name) r' book)
    | Raise e => (Raise e, book)
    end.
Proof.
  intros Hf. unfold Body.add_contact. rewrite length_two.
  unfold bindM at 1. unfold get_book at 1. cbv beta iota. rewrite Hf.
  unfold bindM, lift, mutate, ret.
  destruct (ContactRecord.add_phone r (Some phone)); reflexivity.
Qed.

Lemma add_contact_new name phone rest book :
  find book name = None ->
  Body.add_contact (name :: phone :: rest) book
  = match ContactRecord.add_phone (named name) (Some phone) with
    | Ok r' =>
        (Ok "Contact added.",
         Dict.setitem (normalize name) r'
           (Dict.setitem (normalize name) (named name) book))
    | Raise e => (Raise e, Dict.setitem (normalize name) (named name) book)
    end.
Proof.
  intros Hf. unfold Body.add_contact. rewrite length_two.
  unfold bindM at 1. unfold get_book at 1. cbv beta iota. rewrite Hf.
  unfold bindM, lift, mutate, ret, put_book.
  change (ContactRecord.__init__ (Some name)) with (Ok (named name)).
  cbv beta iota.
  change (add_record book (named name))
    with (Ok (Dict.setitem (normalize name) (named name) book)).
  cbv beta iota.
  destruct (ContactRecord.add_phone (named name) (Some phone)); reflexivity.
Qed.

Lemma setitem_twice {V : Type} k (v v' : V) (d : Dict.t V) :
  Dict.setitem k v' (Dict.setitem k v d) = Dict.setitem k v' d.
Proof.
  induction d as [|[k0 v0] d IH]; cbn [Dict.setitem].
  - now rewrite String.eqb_refl.
  - destruct (String.eqb k0 k) eqn:E; cbn [Dict.setitem]; rewrite E;
      [reflexivity | now rewrite IH].
Qed.

End CliFacts.

Module CliExtras.

Import AddressBook DirectorySpec BookSpec FieldSpec RecordExtras.
Import Cli CliFacts.

(** X12: [add_contact] with a number of ten digits answers "Contact added."
    for a name that is not stored and "Contact updated." for one that is
    stored (in any spelling with the same normal form); afterwards the name
    finds the record with the number at the end of its phones, the record's
    name and birthday as they were, and every other name finds what it found
    before. Arguments after the second are ignored. *)
Theorem add_contact_valid (name phone : string) (rest : list string)
  (book : AddressBook.t) :
  ten_digits phone ->
  exists book',
    add_contact (name :: phone :: rest) book
    = (match find book name with
       | Some _ => "Contact updated."
       | None => "Contact added."
       end, book')
    /\ find book' name
       = Some (match find book name with
               | Some r =>
                   ContactRecord.make (ContactRecord.name r)
                     (ContactRecord.phones r ++ [Field.make (Some phone)])
                     (ContactRecord.birthday r)
               | None =>
                   ContactRecord.make (Field.make (Some name))
                     [Field.make (Some phone)] None
               end)
    /\ forall m, normalize m <> normalize name -> find book' m = find book m.
Proof.
  intros Hp. unfold add_contact, input_error.
  destruct (find book name) as [r|] eqn:Hf.
  - rewrite (add_contact_found name phone rest book r Hf).
    unfold ContactRecord.add_phone. rewrite (phone_init_digits phone Hp).
    cbn [bind]. eexists. split; [reflexivity|]. split.
    + rewrite find_setitem. now rewrite String.eqb_refl.
    + intros m Hm. rewrite find_setitem.
      destruct (String.eqb_spec (normalize m) (normalize name)); [contradiction|].
      reflexivity.
  - rewrite (add_contact_new name phone rest book Hf).
    unfold ContactRecord.add_phone. rewrite (phone_init_digits phone Hp).
    cbn [bind]. eexists. split; [reflexivity|]. rewrite setitem_twice. split.
    + rewrite find_setitem. now rewrite String.eqb_refl.
    + intros m Hm. rewrite find_setitem.
      destruct (String.eqb_spec (normalize m) (normalize name)); [contradiction|].
      reflexivity.
Qed.

Lemma add_contact_valid_witness :
  ten_digits "5555555555"
  /\ exists book',
       add_contact ["BOB"; "5555555555"] [("bob", named "Bob")]
       = (match find [("bob", named "Bob")] "BOB" with
          | Some _ => "Contact updated."
          | None => "Contact added."
          end, book')
       /\ find book' "BOB"
          = Some (match find [("bob", named "Bob")] "BOB" with
                  | Some r =>
                      ContactRecord.make (ContactRecord.name r)
                        (ContactRecord.phones r ++ [Field.make (Some "5555555555")])
                        (ContactRecord.birthday r)
                  | None =>
                      ContactRecord.make (Field.make (Some "BOB"))
                        [Field.make (Some "5555555555")] None
                  end)
       /\ forall m, normalize m <> normalize "BOB" ->
                    find book' m = find [("bob", named "Bob")] m.
Proof.
  split; [exact ten_digits_example|].
  exact (add_contact_valid "BOB" "5555555555" [] [("bob", named "Bob")]
           ten_digits_example).
Defined.




End CliExtras.

Module CliFacts2.

Import AddressBook DirectorySpec BookSpec FieldSpec RecordExtras BirthdaySpec.
Import Cli CliFacts CliSpec.

Lemma change_contact_found name old_phone new_phone rest book r :
  find book name = Some r ->
  Body.change_contact (name :: old_phone :: new_phone :: rest) book
  = match ContactRecord.edit_phone r (Some old_phone) (Some new_phone) with
    | Ok res =>
        (Ok (if fst res then "Contact updated." else "Old phone not found."),
         Dict.setitem (normalize name) (snd res) book)
    | Raise e => (Raise e, book)
    end.
Proof.
  intros Hf. unfold Body.change_contact. rewrite length_three.
  unfold bindM at 1. unfold get_book at 1. cbv beta iota. rewrite Hf.
  unfold bindM, lift, mutate, ret.
  destruct (ContactRecord.edit_phone r (Some old_phone) (Some new_phone));
    reflexivity.
Qed.

Lemma change_contact_unknown name old_phone new_phone rest book :
  find book name = None ->
  change_contact (name :: old_phone :: new_phone :: rest) book
  = (NO_CONTACT, book).
Proof.
  intros Hf. unfold change_contact, input_error, Body.change_contact.
  rewrite length_three.
  unfold bindM at 1. unfold get_book at 1. cbv beta iota. rewrite Hf.
  reflexivity.
Qed.

Lemma show_phone_found name book r :
  find book name = Some r ->
  Body.show_phone [name] book
  = (match ContactRecord.phones r with
     | [] => Ok "No phones"
     | phones => join "; " (map Field.value phones)
     end, book).
Proof.
  intros Hf. unfold Body.show_phone.
  unfold bindM at 1. unfold get_book at 1. cbv beta iota. rewrite Hf.
  destruct (ContactRecord.phones r); reflexivity.
Qed.

Lemma show_phone_unknown name book :
  find book name = None -> show_phone [name] book = (NO_CONTACT, book).
Proof.
  intros Hf. unfold show_phone, input_error, Body.show_phone.
  unfold bindM at 1. unfold get_book at 1. cbv beta iota. rewrite Hf.
  reflexivity.
Qed.

Lemma add_birthday_found name birthday rest book r :
  find book name = Some r ->
  Body.add_birthday (name :: birthday :: rest) book
  = match ContactRecord.add_birthday r (Some birthday) with
    | Ok r' => (Ok "Birthday added.", Dict.setitem (normalize name) r' book)
    | Raise e => (Raise e, book)
    end.
Proof.
  intros Hf. unfold Body.add_birthday. rewrite length_two.
  unfold bindM at 1. unfold get_book at 1. cbv beta iota. rewrite Hf.
  unfold bindM, lift, mutate, ret.
  destruct (ContactRecord.add_birthday r (Some birthday)); reflexivity.
Qed.

Lemma add_birthday_unknown name birthday rest book :
  find book name = None ->
  add_birthday (name :: birthday :: rest) book = (NO_CONTACT, book).
Proof.
  intros Hf. unfold add_birthday, input_error, Body.add_birthday.
  rewrite length_two.
  unfold bindM at 1. unfold get_book at 1. cbv beta iota. rewrite Hf.
  reflexivity.
Qed.

Section WithLibc.

Context `{Libc}.

Lemma show_birthday_found name rest book r :
  find book name = Some r ->
  show_birthday (name :: rest) book
  = (match birthday_value r with
     | None => "No birthday set."
     | Some d => Time.strftime DATE_STR_PATTERN d
     end, book).
Proof.
  intros Hf. unfold show_birthday, input_error, Body.show_birthday.
  unfold bindM at 1. unfold get_book at 1. cbv beta iota. rewrite Hf.
  unfold birthday_value.
  destruct (ContactRecord.birthday r) as [b|]; [|reflexivity].
  destruct (Field.value b); reflexivity.
Qed.

Lemma show_birthday_unknown name rest book :
  find book name = None ->
  show_birthday (name :: rest) book = (NO_CONTACT, book).
Proof.
  intros Hf. unfold show_birthday, input_error, Body.show_birthday.
  unfold bindM at 1. unfold get_book at 1. cbv beta iota. rewrite Hf.
  reflexivity.
Qed.

(** Formatting the date read from a text DD.MM.YYYY gives the text, from
    year 1000 on. *)
Lemma strftime_dd_mm_yyyy s ds ms ys :
  dd_mm_yyyy s ds ms ys -> 1000 <= Str.int ys <= 9999 ->
  Time.strftime DATE_STR_PATTERN
    (Date.mkdate (Str.int ys) (Str.int ms) (Str.int ds)) = s.
Proof.
  intros (Hs & Hd & Hm & Hy) Hyear.
  change (Time.strftime DATE_STR_PATTERN
            (Date.mkdate (Str.int ys) (Str.int ms) (Str.int ds)))
    with (Str.zfill 2 (Str.int ds) ++ "." ++ Str.zfill 2 (Str.int ms) ++ "."
          ++ strftime_Y (Str.int ys) ++ "")%string.
  rewrite strftime_Y_four by exact Hyear.
  rewrite (StrptimeFacts.zfill4_text _ Hy), (StrptimeFacts.zfill2_text _ Hm),
    (StrptimeFacts.zfill2_text _ Hd), ReFacts.append_nil_r.
  symmetry. exact Hs.
Qed.

End WithLibc.

Lemma join_concat (l : list string) :
  join "; " (map Field.value (phones_of l)) = Ok (String.concat "; " l).
Proof.
  induction l as [|x l IH]; [reflexivity|].
  destruct l as [|y l]; [reflexivity|].
  change (join "; " (map Field.value (phones_of (x :: y :: l))))
    with (rest <- join "; " (map Field.value (phones_of (y :: l))) ;;
          Ok (x ++ "; " ++ rest)%string).
  rewrite IH. reflexivity.
Qed.

Lemma kept_refl book : kept book book.
Proof. unfold kept. tauto. Qed.

Lemma kept_setitem book n r : kept book (Dict.setitem (normalize n) r book).
Proof.
  unfold kept. split; [|split].
  - apply DirectoryFacts.keys_normalized_setitem, DirectoryFacts.normalize_idem.
  - apply DictFacts.NoDup_setitem.
  - intros m Hm. rewrite find_setitem.
    destruct (String.eqb (normalize m) (normalize n)); [discriminate | exact Hm].
Qed.

Lemma find_ann : find [("ann", two_phones)] "ANN" = Some two_phones.
Proof. vm_compute. reflexivity. Qed.

Lemma dd_mm_yyyy_example : dd_mm_yyyy "13.05.2024" "13" "05" "2024".
Proof.
  split; [reflexivity|].
  split; [|split]; (split; [reflexivity|]);
    repeat (apply Forall_cons;
            [apply CharFacts.decimal_digit_ord; vm_compute; split; discriminate|]);
    apply Forall_nil.
Qed.

Lemma real_date_example :
  real_date (Str.int "2024") (Str.int "05") (Str.int "13").
Proof. vm_compute. repeat split; discriminate. Qed.

Lemma year_example : 1000 <= Str.int "2024".
Proof. vm_compute. discriminate. Qed.


End CliFacts2.

Module CliExtras2.

Import AddressBook DirectorySpec BookSpec FieldSpec RecordExtras BirthdaySpec.
Import Cli CliFacts CliSpec CliFacts2.

(** X14: for a name that finds no contact, [change_contact], [show_phone],
    [add_birthday] and [show_birthday] answer "No such contact in the address
    book." and leave the directory unchanged. *)
Theorem unknown_contact `{Libc} (name a b : string) (rest : list string)
  (book : AddressBook.t) :
  find book name = None ->
  change_contact (name :: a :: b :: rest) book
  = ("No such contact in the address book.", book)
  /\ show_phone [name] book = ("No such contact in the address book.", book)
  /\ add_birthday (name :: a :: rest) book
     = ("No such contact in the address book.", book)
  /\ show_birthday (name :: rest) book
     = ("No such contact in the address book.", book).
Proof.
  intros Hf. split; [|split; [|split]].
  - apply change_contact_unknown, Hf.
  - apply show_phone_unknown, Hf.
  - apply add_birthday_unknown, Hf.
  - apply show_birthday_unknown, Hf.
Qed.

Lemma unknown_contact_witness :
  find [("bob", named "Bob")] "Ann" = None
  /\ change_contact ("Ann" :: "1234567890" :: "0987654321" :: []) [("bob", named "Bob")]
     = ("No such contact in the address book.", [("bob", named "Bob")])
  /\ show_phone ["Ann"] [("bob", named "Bob")]
     = ("No such contact in the address book.", [("bob", named "Bob")])
  /\ add_birthday ("Ann" :: "1234567890" :: []) [("bob", named "Bob")]
     = ("No such contact in the address book.", [("bob", named "Bob")])
  /\ show_birthday ("Ann" :: []) [("bob", named "Bob")]
     = ("No such contact in the address book.", [("bob", named "Bob")]).
Proof.
  split; [reflexivity|].
  exact (unknown_contact "Ann" "1234567890" "0987654321" []
           [("bob", named "Bob")] eq_refl).
Defined.

(** X15: for a stored contact, [add_birthday] with a text DD.MM.YYYY that
    denotes a real date of the years 1000 to 9999 answers "Birthday added.",
    and [show_birthday] then prints the same text; phones and name of the
    contact are kept and an earlier birthday is replaced. *)
Theorem birthday_round_trip `{Libc} (name s ds ms ys : string)
  (rest rest' : list string) (book : AddressBook.t) (r : ContactRecord.t) :
  find book name = Some r ->
  dd_mm_yyyy s ds ms ys ->
  real_date (Str.int ys) (Str.int ms) (Str.int ds) ->
  1000 <= Str.int ys ->
  exists book',
    add_birthday (name :: s :: rest) book = ("Birthday added.", book')
    /\ show_birthday (name :: rest') book' = (s, book')
    /\ find book' name
       = Some (ContactRecord.make (ContactRecord.name r)
                 (ContactRecord.phones r)
                 (Some (Field.make
                          (Some (Date.mkdate (Str.int ys) (Str.int ms)
                                   (Str.int ds)))))).
Proof.
  intros Hf Hp Hreal Hyear.
  assert (Hb : Birthday.__init__ (Some s)
               = Ok (Field.make (Some (Date.mkdate (Str.int ys) (Str.int ms)
                                         (Str.int ds))))).
  { apply StrptimeFacts.birthday_init_ok. eexists. split; [|reflexivity].
    destruct Hp as (Hs & Hd & Hm & Hy). exists ds, ms, ys.
    unfold day_text, month_text, year_text. tauto. }
  unfold add_birthday, input_error.
  rewrite (add_birthday_found name s rest book r Hf).
  unfold ContactRecord.add_birthday. rewrite Hb. cbn [bind].
  eexists. split; [reflexivity|].
  assert (Hf' : find (Dict.setitem (normalize name)
                        (ContactRecord.make (ContactRecord.name r)
                           (ContactRecord.phones r)
                           (Some (Field.make
                                    (Some (Date.mkdate (Str.int ys) (Str.int ms)
                                             (Str.int ds)))))) book) name
                = Some (ContactRecord.make (ContactRecord.name r)
                          (ContactRecord.phones r)
                          (Some (Field.make
                                   (Some (Date.mkdate (Str.int ys) (Str.int ms)
                                            (Str.int ds))))))).
  { rewrite find_setitem. now rewrite String.eqb_refl. }
  split; [|exact Hf'].
  rewrite (show_birthday_found name rest' _ _ Hf').
  unfold birthday_value. cbn [ContactRecord.birthday Field.value].
  rewrite (strftime_dd_mm_yyyy s ds ms ys Hp); [reflexivity|].
  destruct Hreal as [? _]. lia.
Qed.

Lemma birthday_round_trip_witness :
  find [("ann", two_phones)] "ANN" = Some two_phones
  /\ dd_mm_yyyy "13.05.2024" "13" "05" "2024"
  /\ real_date (Str.int "2024") (Str.int "05") (Str.int "13")
  /\ 1000 <= Str.int "2024"
  /\ exists book',
       add_birthday ("ANN" :: "13.05.2024" :: []) [("ann", two_phones)]
       = ("Birthday added.", book')
       /\ show_birthday ("ANN" :: []) book' = ("13.05.2024", book')
       /\ find book' "ANN"
          = Some (ContactRecord.make (ContactRecord.name two_phones)
                    (ContactRecord.phones two_phones)
                    (Some (Field.make
                             (Some (Date.mkdate (Str.int "2024") (Str.int "05")
                                      (Str.int "13")))))).
Proof.
  split; [exact find_ann|]. split; [exact dd_mm_yyyy_example|].
  split; [exact real_date_example|]. split; [exact year_example|].
  exact (birthday_round_trip "ANN" "13.05.2024" "13" "05" "2024" [] []
           [("ann", two_phones)] two_phones find_ann dd_mm_yyyy_example
           real_date_example year_example).
Defined.





(** X18: for a stored contact whose phones do not hold the old number,
    [change_contact] answers "Old phone not found.", whatever the new text
    is (it is not validated), and the directory is unchanged. *)
Theorem change_contact_absent_old (name old_phone new_phone : string)
  (rest : list string) (book : AddressBook.t) (r : ContactRecord.t) :
  find book name = Some r ->
  (forall q, In q (ContactRecord.phones r) -> Field.value q <> Some old_phone) ->
  change_contact (name :: old_phone :: new_phone :: rest) book
  = ("Old phone not found.", book).
Proof.
  intros Hf Habs. unfold change_contact, input_error.
  rewrite (change_contact_found name old_phone new_phone rest book r Hf).
  unfold ContactRecord.edit_phone, ContactRecord.find_phone.
  rewrite (find_absent (Some old_phone) _ Habs). cbn [fst snd].
  rewrite setitem_same; [reflexivity|]. exact Hf.
Qed.

Lemma change_contact_absent_old_witness :
  find [("ann", two_phones)] "ANN" = Some two_phones
  /\ (forall q, In q (ContactRecord.phones two_phones) ->
                Field.value q <> Some "5555555555")
  /\ change_contact ("ANN" :: "5555555555" :: "12" :: []) [("ann", two_phones)]
     = ("Old phone not found.", [("ann", two_phones)]).
Proof.
  assert (Habs : forall q, In q (ContactRecord.phones two_phones) ->
                           Field.value q <> Some "5555555555").
  { intros q [<-|[<-|[]]]; discriminate. }
  split; [exact find_ann|]. split; [exact Habs|].
  exact (change_contact_absent_old "ANN" "5555555555" "12" []
           [("ann", two_phones)] two_phones find_ann Habs).
Defined.

(** X19: [show_phone] takes exactly one argument: with more it answers "Too
    many arguments." and with none "Format: phone <name>"; for a stored
    contact it prints the numbers in the order they were added, separated
    by "; ", or "No phones". It never changes the directory. *)
Theorem show_phone_lists (name : string) (book : AddressBook.t)
  (r : ContactRecord.t) (l : list string) :
  find book name = Some r ->
  ContactRecord.phones r = phones_of l ->
  show_phone [name] book
  = (match l with [] => "No phones" | _ => String.concat "; " l end, book)
  /\ (forall a b rest, show_phone (a :: b :: rest) book
                       = ("Too many arguments.", book))
  /\ show_phone [] book = ("Format: phone <name>", book).
Proof.
  intros Hf Hr. split; [|split].
  - unfold show_phone, input_error. rewrite (show_phone_found name book r Hf).
    rewrite Hr. destruct l as [|x l]; [reflexivity|].
    pose proof (join_concat (x :: l)) as Hj.
    cbn [phones_of map] in Hj |- *. rewrite Hj. reflexivity.
  - intros a b rest. vm_compute. reflexivity.
  - vm_compute. reflexivity.
Qed.

Lemma show_phone_lists_witness :
  find [("ann", two_phones)] "ANN" = Some two_phones
  /\ ContactRecord.phones two_phones = phones_of ["1234567890"; "0987654321"]
  /\ show_phone ["ANN"] [("ann", two_phones)]
     = ("1234567890; 0987654321", [("ann", two_phones)])
  /\ (forall a b rest, show_phone (a :: b :: rest) [("ann", two_phones)]
                       = ("Too many arguments.", [("ann", two_phones)]))
  /\ show_phone [] [("ann", two_phones)]
     = ("Format: phone <name>", [("ann", two_phones)]).
Proof.
  split; [exact find_ann|]. split; [reflexivity|].
  exact (show_phone_lists "ANN" [("ann", two_phones)] two_phones
           ["1234567890"; "0987654321"] find_ann eq_refl).
Defined.

(** X20: no command loses a contact or spoils the keys: after
    [add_contact], [change_contact] and [add_birthday], whatever the
    arguments, the keys are still in normal form and distinct and every
    name that found a contact still finds one; [show_phone] and
    [show_birthday] leave the directory as it is. *)
Theorem commands_keep `{Libc} (args : list string) (book : AddressBook.t) :
  kept book (snd (add_contact args book))
  /\ kept book (snd (change_contact args book))
  /\ kept book (snd (add_birthday args book))
  /\ snd (show_phone args book) = book
  /\ snd (show_birthday args book) = book.
Proof.
  split; [|split; [|split; [|split]]].
  - destruct args as [|name [|phone rest]]; try apply kept_refl.
    unfold add_contact, input_error.
    destruct (find book name) as [r|] eqn:Hf.
    + rewrite (add_contact_found name phone rest book r Hf).
      destruct (ContactRecord.add_phone r (Some phone)); cbn [snd];
        [apply kept_setitem | apply kept_refl].
    + rewrite (add_contact_new name phone rest book Hf).
      destruct (ContactRecord.add_phone (named name) (Some phone)); cbn [snd].
      * rewrite setitem_twice. apply kept_setitem.
      * apply kept_setitem.
  - destruct args as [|name [|old_phone [|new_phone rest]]]; try apply kept_refl.
    destruct (find book name) as [r|] eqn:Hf.
    + unfold change_contact, input_error.
      rewrite (change_contact_found name old_phone new_phone rest book r Hf).
      destruct (ContactRecord.edit_phone r (Some old_phone) (Some new_phone));
        cbn [snd]; [apply kept_setitem | apply kept_refl].
    + rewrite (change_contact_unknown _ _ _ _ _ Hf). apply kept_refl.
  - destruct args as [|name [|birthday rest]]; try apply kept_refl.
    destruct (find book name) as [r|] eqn:Hf.
    + unfold add_birthday, input_error.
      rewrite (add_birthday_found name birthday rest book r Hf).
      destruct (ContactRecord.add_birthday r (Some birthday));
        cbn [snd]; [apply kept_setitem | apply kept_refl].
    + rewrite (add_birthday_unknown _ _ _ _ Hf). apply kept_refl.
  - destruct args as [|name [|b rest]]; try reflexivity.
    destruct (find book name) as [r|] eqn:Hf.
    + unfold show_phone, input_error. rewrite (show_phone_found name book r Hf).
      destruct (ContactRecord.phones r) as [|p ps]; [reflexivity|].
      destruct (join "; " (map Field.value (p :: ps))); reflexivity.
    + now rewrite (show_phone_unknown _ _ Hf).
  - destruct args as [|name rest]; [reflexivity|].
    destruct (find book name) as [r|] eqn:Hf.
    + now rewrite (show_birthday_found name rest book r Hf).
    + now rewrite (show_birthday_unknown _ _ _ Hf).
Qed.

End CliExtras2.
